(** * Soccer.js engine: the [Layer] container of [engine/object.js]

    A shallow embedding of [Child] and [Layer] (child management, layout
    placement, popup slot and event dispatch) together with the three layout
    strategies [Layer.HBox], [Layer.VBox] and [Layer.BorderBox].

    Conventions of the embedding.
    - JavaScript numbers are exact rationals ([Q]).  A position that
      JavaScript computes as [NaN] cannot be held in a rectangle: the
      outcome [NotANumber] marks a call that assigned such a position, and
      the state it comes with is the state JavaScript reaches in everything
      but that position.
    - Objects are referred to by identity ([oid]); a Layer carries the store
      [objs] that its references denote, so that an assignment such as
      [child.rect.xy = ...] is seen through every reference to that child.
    - A method that can raise returns the state reached together with an
      [Outcome]; the state is kept when a [TypeError] propagates, as the
      mutations made before the throw are.
    - The event handlers of children are functions from the message to the
      value they return; every invocation is recorded in a trace. *)

From Stdlib Require Import QArith Qminmax Lqa.
From stdpp Require Import gmap strings fin_maps functions list.

(** ** Geometry and messages (collaborators of the module) *)

(** Object identities: what a JavaScript reference compares by [===]. *)
Definition oid := nat.

Record Vec2 := mkVec2 { vx : Q; vy : Q }.

Record Rect := mkRect { rect_x : Q; rect_y : Q; rect_w : Q; rect_h : Q }.

Module Geometry.
Local Open Scope Q_scope.

(** Modelled from the spec: [shared/math] is not part of the sources; the
    getter [rect.xy] is the position of the rectangle. *)
Definition xy (r : Rect) : Q * Q := (rect_x r, rect_y r).

(** Modelled from the spec: the setter [rect.xy = [a, b]] moves the
    rectangle and keeps its size. *)
Definition set_xy (p : Q * Q) (r : Rect) : Rect :=
  mkRect (fst p) (snd p) (rect_w r) (rect_h r).

(** Modelled from the spec: the setter [rect.wh = [a, b]] resizes the
    rectangle and keeps its position. *)
Definition set_wh (p : Q * Q) (r : Rect) : Rect :=
  mkRect (rect_x r) (rect_y r) (fst p) (snd p).

(** Modelled from the spec: [rect.clone().add(v)] is the component-wise
    translation of the rectangle by the vector [v]. *)
Definition add (r : Rect) (v : Vec2) : Rect :=
  mkRect (rect_x r + vx v) (rect_y r + vy v) (rect_w r) (rect_h r).

(** Modelled from the spec: [v.clone().sub(rect)] translates a position into
    the local space of [rect] by subtracting the origin of [rect]. *)
Definition sub (v : Vec2) (r : Rect) : Vec2 :=
  mkVec2 (vx v - rect_x r) (vy v - rect_y r).

(** Modelled from the spec: one reading of the containment test of
    [shared/math], with inclusive edges.  The dispatch function takes the
    test as a parameter; this instance serves the concrete scenarios. *)
Definition contains (r : Rect) (p : Vec2) : bool :=
  Qle_bool (rect_x r) (vx p) && Qle_bool (vx p) (rect_x r + rect_w r)
  && Qle_bool (rect_y r) (vy p) && Qle_bool (vy p) (rect_y r + rect_h r).

(** JavaScript truthiness of a number: anything but zero. *)
Definition truthy (q : Q) : bool := negb (Qeq_bool q 0).
End Geometry.

(** The values that flow through option bags and handler results. *)
Inductive JsVal :=
  | VUndefined
  | VNull
  | VBool (b : bool)
  | VNum (q : Q)
  | VPair (a b : Q).

Module Js.
(** [!!v] *)
Definition truthy (v : JsVal) : bool :=
  match v with
  | VUndefined | VNull => false
  | VBool b => b
  | VNum q => Geometry.truthy q
  | VPair _ _ => true
  end.

(** [v === true] *)
Definition is_true (v : JsVal) : bool :=
  match v with VBool true => true | _ => false end.

(** [v === false] *)
Definition is_false (v : JsVal) : bool :=
  match v with VBool false => true | _ => false end.

(** [v[i]] for [i] in 0, 1 as a number: [None] stands for a value that
    turns arithmetic into [NaN] (a missing element, [undefined]). *)
Definition index (v : JsVal) (i : nat) : option Q :=
  match v, i with
  | VPair a _, O => Some a
  | VPair _ b, S O => Some b
  | _, _ => None
  end.
End Js.

(** An options bag: a JavaScript object used as a map from keys to values. *)
Abbreviation Opts := (gmap string JsVal).

Record Message := mkMessage {
  type : string;
  creator : nat;
  data : Vec2;
  finalCallback : nat;
}.

(** What a call hands back: a value, a raised [TypeError], or, for a call
    that went through with a position computed as [NaN], the mark
    [NotANumber] in place of the value. *)
Inductive Outcome (A : Type) :=
  | Return (a : A)
  | TypeError
  | NotANumber.
Arguments Return {A} a.
Arguments TypeError {A}.
Arguments NotANumber {A}.

(** ** Child *)

Module Child.
Record t := mk {
  rect : Rect;
  (** back-reference to the owning Layer, absent until [add] or
      [showPopup] assigns it *)
  layer : option oid;
  disabled : bool;
  (** whether the object exposes an [init] hook, and how often it ran *)
  init : bool;
  inits : nat;
  (** the value [onEvent(event)] returns in the state the object is in;
      [Child.onEvent] itself returns [undefined].  A handler that changes
      the state of its object is a change of the store between two
      dispatches. *)
  onEvent : Message -> JsVal;
}.

Definition new (r : Rect) : t :=
  mk r None false false 0 (fun _ => VUndefined).

Definition set_rect (r : Rect) (c : t) : t :=
  mk r (layer c) (disabled c) (init c) (inits c) (onEvent c).

Definition set_layer (l : oid) (c : t) : t :=
  mk (rect c) (Some l) (disabled c) (init c) (inits c) (onEvent c).

(** [child.init && child.init()] *)
Definition run_init (c : t) : t :=
  if init c
  then mk (rect c) (layer c) (disabled c) (init c) (S (inits c)) (onEvent c)
  else c.
End Child.

(** ** Layer *)

(** The layout strategies the module defines; [this.layout] holds one of them
    or [null]. *)
Module Strategy.
Inductive t := HBox | VBox | BorderBox.
End Strategy.

(** What a Layer method returns on success. *)
Inductive Ret :=
  | RetThis
  | RetChild (c : oid).

(** An invocation of [onEvent] made by a Layer during dispatch. *)
Inductive Call :=
  | CallPopup (p : oid) (m : Message)
  | CallChild (c : oid) (m : Message).

Module Layer.
Local Open Scope Q_scope.

Record t := mk {
  self : oid;
  rect : Rect;
  children : list oid;
  popup : option oid;
  spacing : Q;
  layout : option Strategy.t;
  eventForwarding : bool;
  (** the objects the references of this Layer denote *)
  objs : oid -> Child.t;
}.

(** [new Layer(layout, maxSize)] *)
Definition new (id : oid) (lay : option Strategy.t) (maxSize : Rect)
    (store : oid -> Child.t) : t :=
  mk id maxSize [] None 5 lay true store.

Definition set_children (cs : list oid) (L : t) : t :=
  mk (self L) (rect L) cs (popup L) (spacing L) (layout L)
     (eventForwarding L) (objs L).

Definition set_popup (p : option oid) (L : t) : t :=
  mk (self L) (rect L) (children L) p (spacing L) (layout L)
     (eventForwarding L) (objs L).

Definition set_objs (s : oid -> Child.t) (L : t) : t :=
  mk (self L) (rect L) (children L) (popup L) (spacing L) (layout L)
     (eventForwarding L) s.

(** Assignment through a reference: [o.field = ...]. *)
Definition assign (o : oid) (f : Child.t -> Child.t) (L : t) : t :=
  set_objs (<[o := f (objs L o)]> (objs L)) L.

(** [o.rect.xy = p] *)
Definition assign_xy (o : oid) (p : Q * Q) (L : t) : t :=
  assign o (fun c => Child.set_rect (Geometry.set_xy p (Child.rect c)) c) L.

(** [o.rect.wh = p] *)
Definition assign_wh (o : oid) (p : Q * Q) (L : t) : t :=
  assign o (fun c => Child.set_rect (Geometry.set_wh p (Child.rect c)) c) L.

Definition rect_of (L : t) (o : oid) : Rect := Child.rect (objs L o).

(** *** Layout strategies, called as [this.layout(child, prev, opts)] *)

(** [Layer.HBox]: [prev.rect] is read first, so a missing [prev] raises. *)
Definition HBox (L : t) (child : oid) (prev : option oid)
    : Outcome (Q * Q) :=
  match prev with
  | None => TypeError
  | Some p =>
      let r := rect_of L p in
      Return (Geometry.xy (Geometry.add r (mkVec2 (rect_w r + spacing L) 0)))
  end.

(** [Layer.VBox] *)
Definition VBox (L : t) (child : oid) (prev : option oid)
    : Outcome (Q * Q) :=
  match prev with
  | None => TypeError
  | Some p =>
      let r := rect_of L p in
      Return (Geometry.xy (Geometry.add r (mkVec2 0 (rect_h r + spacing L))))
  end.

(** One axis of [Layer.BorderBox]:
    [Math.max(0, Math.min(size * align - child / 2, size - child))]. *)
Definition border_axis (size align child : Q) : Q :=
  Qmax 0 (Qmin (size * align - child / 2) (size - child)).

(** [Layer.BorderBox]: [opts.align[0]] raises when [opts] or [opts.align]
    is [undefined] or [null]; an [align] that is not a pair of numbers
    yields [NaN]. *)
Definition BorderBox (L : t) (child : oid) (prev : option oid)
    (opts : option Opts) : Outcome (Q * Q) :=
  match opts with
  | None => TypeError
  | Some o =>
      match o !! "align"%string with
      | None | Some VUndefined | Some VNull => TypeError
      | Some (VPair ax ay) =>
          let c := rect_of L child in
          Return (border_axis (rect_w (rect L)) ax (rect_w c),
                  border_axis (rect_h (rect L)) ay (rect_h c))
      | Some _ => NotANumber
      end
  end.

Definition apply_layout (lay : Strategy.t) (L : t) (child : oid)
    (prev : option oid) (opts : option Opts) : Outcome (Q * Q) :=
  match lay with
  | Strategy.HBox => HBox L child prev
  | Strategy.VBox => VBox L child prev
  | Strategy.BorderBox => BorderBox L child prev opts
  end.

(** *** Container operations *)

(** The loop of [_reloadLayout] from the second child on: every item is
    placed by [this.layout(item, this.children[index - 1])], which is called
    without options and reads the position just assigned to the previous
    item. *)
Fixpoint reload_from (lay : Strategy.t) (prev : oid) (items : list oid)
    (L : t) : t * Outcome Ret :=
  match items with
  | [] => (L, Return RetThis)
  | item :: rest =>
      match apply_layout lay L item (Some prev) None with
      | Return p => reload_from lay item rest (assign_xy item p L)
      | TypeError => (L, TypeError)
      | NotANumber => (L, NotANumber)
      end
  end.

(** [_reloadLayout()]: the popup is dropped first; with a layout, the first
    child goes to [[0, 0]] and the others follow it. *)
Definition _reloadLayout (L : t) : t * Outcome Ret :=
  let L := set_popup None L in
  match layout L with
  | None => (L, Return RetThis)
  | Some lay =>
      match children L with
      | [] => (L, Return RetThis)
      | first :: rest => reload_from lay first rest (assign_xy first (0, 0) L)
      end
  end.

(** [showPopup(popup)], [None] being [null]. *)
Definition showPopup (p : option oid) (L : t) : t * Outcome Ret :=
  let L := set_popup p L in
  match p with
  | None => (L, Return RetThis)
  | Some o =>
      let L := assign o (Child.set_layer (self L)) L in
      let r := rect_of L o in
      (assign_xy o (rect_w (rect L) / 2 - rect_w r / 2,
                    rect_h (rect L) / 2 - rect_h r / 2) L,
       Return RetThis)
  end.

(** [clear()] *)
Definition clear (L : t) : t * Outcome Ret :=
  _reloadLayout (set_children [] L).

(** [(size * opts.fill[i]) || own]: the product when it is a number other
    than zero, the child's own extent otherwise. *)
Definition fill_axis (size : Q) (fill : JsVal) (i : nat) (own : Q) : Q :=
  match Js.index fill i with
  | Some f => if Geometry.truthy (size * f) then size * f else own
  | None => own
  end.

(** [_.omit(opts, ["fill", "useLayout"])]; an [undefined] bag gives the
    empty one. *)
Definition omit (opts : option Opts) : Opts :=
  match opts with
  | None => ∅
  | Some o => delete "fill"%string (delete "useLayout"%string o)
  end.

(** [_.isEmpty(opts)] *)
Definition isEmpty (o : Opts) : bool := bool_decide (dom o = ∅).

(** [opts && opts.fill] as a condition, with the value of [opts.fill]. *)
Definition fill_of (opts : option Opts) : option JsVal :=
  match opts with
  | None => None
  | Some o =>
      match o !! "fill"%string with
      | Some v => if Js.truthy v then Some v else None
      | None => None
      end
  end.

(** [!opts || opts.useLayout !== false] *)
Definition uses_layout (opts : option Opts) : bool :=
  match opts with
  | None => true
  | Some o =>
      match o !! "useLayout"%string with
      | Some v => negb (Js.is_false v)
      | None => true
      end
  end.

(** The tail of [add]: [child.init && child.init()], the push and the
    returned child. *)
Definition add_finish (child : oid) (L : t) : t * Outcome Ret :=
  let L := assign child Child.run_init L in
  (set_children (children L ++ [child]) L, Return (RetChild child)).

(** [add(child, opts)], [None] being an omitted [opts].  A strategy that
    raises ends the call before the child is initialised and pushed; a
    position computed as [NaN] is assigned like any other, and the child is
    initialised, pushed and returned. *)
Definition add (child : oid) (opts : option Opts) (L : t)
    : t * Outcome Ret :=
  let L := assign child (Child.set_layer (self L)) L in
  match layout L with
  | None => add_finish child L
  | Some lay =>
      let L :=
        match fill_of opts with
        | Some f =>
            let own := rect_of L child in
            assign_wh child
              (fill_axis (rect_w (rect L)) f 0 (rect_w own) - spacing L * 2,
               fill_axis (rect_h (rect L)) f 1 (rect_h own) - spacing L * 2)
              L
        | None => L
        end in
      if uses_layout opts then
        let o := omit opts in
        if negb (length (children L) =? 0)%nat || negb (isEmpty o) then
          match apply_layout lay L child (last (children L)) (Some o) with
          | Return p => add_finish child (assign_xy child p L)
          | TypeError => (L, TypeError)
          | NotANumber => ((add_finish child L).1, NotANumber)
          end
        else add_finish child (assign_xy child (spacing L, spacing L) L)
      else add_finish child L
  end.

(** *** Event dispatch *)

(** A child takes the event when it is enabled and its handler answers
    [true]. *)
Definition captures (L : t) (event : Message) (c : oid) : bool :=
  negb (Child.disabled (objs L c))
  && Js.is_true (Child.onEvent (objs L c) event).

(** The invocations that visiting [items] in order makes: one for every
    child that is not disabled. *)
Definition calls_to (L : t) (event : Message) (items : list oid)
    : list Call :=
  (fun c => CallChild c event)
    <$> filter (fun c => Child.disabled (objs L c) = false) items.

(** *** Drawing and updating *)

(** What [draw] asks of the rendering context and of the objects it draws,
    in order. *)
Inductive DrawOp :=
  | Save
  | Translate (dx dy : Q)
  | DrawChild (c : oid)
  | FillWith (colour : string)
  | FillRect (r : Rect)
  | DrawPopup (p : oid)
  | Restore.

(** [draw(context)], for objects that honour the Child contract and have a
    [draw] method: the origin is moved to the Layer, every child that is not
    disabled is drawn, then, with a popup, the scrim and the popup. *)
Definition draw (L : t) : list DrawOp :=
  [Save; Translate (rect_x (rect L)) (rect_y (rect L))]
  ++ (DrawChild <$> filter (fun c => Child.disabled (objs L c) = false)
                           (children L))
  ++ match popup L with
     | Some p => [FillWith "rgba(0, 0, 0, .75"; FillRect (rect L); DrawPopup p]
     | None => []
     end
  ++ [Restore].

(** An invocation of [update] made by a Layer. *)
Inductive Tick :=
  | TickPopup (p : oid)
  | TickChild (c : oid).

Section Update.
(** whether [o.update] is there to be called *)
Variable hasUpdate : oid -> bool.

(** [update()]: with a popup, [this.popup.update()] alone, which raises when
    the popup has no such method; otherwise every child that is not disabled
    and has an [update] method. *)
Definition update (L : t) : Outcome (list Tick) :=
  match popup L with
  | Some p => if hasUpdate p then Return [TickPopup p] else TypeError
  | None =>
      Return (TickChild
                <$> filter (fun c => Child.disabled (objs L c) = false
                                     ∧ hasUpdate c = true)
                           (children L))
  end.
End Update.

Section Dispatch.
(** [event.isMouseEvent()], of [engine/message.js] *)
Variable isMouseEvent : Message -> bool.
(** [rect.contains(point)], of [shared/math] *)
Variable contains : Rect -> Vec2 -> bool.
(** lodash's comparison of an object against the own properties of a
    source object, [baseIsMatch L source object], in the state [L] *)
Variable baseIsMatch : t -> oid -> oid -> bool.

(** The predicate lodash builds from an object: [_.matches(source)],
    [object === source || baseIsMatch(object, source)]. *)
Definition matches (L : t) (source object : oid) : bool :=
  (object =? source)%nat || baseIsMatch L source object.

(** [_.remove(array, child)]: what is left in the array once every
    element that [_.matches(child)] accepts has been pulled out. *)
Definition lodash_remove (L : t) (child : oid) (array : list oid)
    : list oid :=
  filter (fun o => matches L child o = false) array.

(** [remove(child)]: the array [_.remove] returns is truthy whatever it
    holds, so [_reloadLayout] always runs. *)
Definition remove (child : oid) (L : t) : t * Outcome Ret :=
  _reloadLayout (set_children (lodash_remove L child (children L)) L).

(** The hit test that opens [onEvent]: a pointer event whose position the
    rectangle of nonzero area does not contain is turned away. *)
Definition rejects (L : t) (event : Message) : bool :=
  isMouseEvent event
  && Geometry.truthy (rect_w (rect L) * rect_h (rect L))
  && negb (contains (rect L) (data event)).

(** The event handed on: a pointer event is rebuilt with its position in
    the local space of the Layer, any other event is passed as it is. *)
Definition rewrap (L : t) (event : Message) : Message :=
  if isMouseEvent event
  then mkMessage (type event) (creator event)
                 (Geometry.sub (data event) (rect L)) (finalCallback event)
  else event.

(** The callback of [_.each(this.children, ...)] over the items still to
    visit: a disabled child is passed over; a child that returns [true]
    is pulled out of [this.children], put back in front, and ends the
    iteration. *)
Fixpoint forward (event : Message) (items : list oid) (L : t)
    : t * list Call :=
  match items with
  | [] => (L, [])
  | child :: rest =>
      if Child.disabled (objs L child) then forward event rest L
      else
        let result := Child.onEvent (objs L child) event in
        if Js.is_true result
        then (set_children (child :: lodash_remove L child (children L)) L,
              [CallChild child event])
        else
          let '(L', calls) := forward event rest L in
          (L', CallChild child event :: calls)
  end.

(** [onEvent(event)]: the state reached, the value returned and the
    handlers invoked, in order. *)
Definition onEvent (event : Message) (L : t) : t * JsVal * list Call :=
  if rejects L event then (L, VBool false, [])
  else
    let event := rewrap L event in
    match popup L with
    | Some p => (L, VUndefined, [CallPopup p event])
    | None =>
        if eventForwarding L
        then let '(L', calls) := forward event (children L) L in
             (L', VUndefined, calls)
        else (L, VUndefined, [])
    end.
End Dispatch.
End Layer.

(** ** The words of the specification *)

Module Spec.
Local Open Scope Q_scope.

(** [clamp(v, lo, hi)]: [v] brought up to [lo] after being brought down to
    [hi]. *)
Definition clamp (v lo hi : Q) : Q := Qmax lo (Qmin v hi).

End Spec.

(** ** Vocabulary of the layout properties *)

Module Strip.
Local Open Scope Q_scope.

(** [b] sits right of [a], at the distance [s], on the same line. *)
Definition right_of (s : Q) (a b : Rect) : Prop :=
  rect_x b == rect_x a + rect_w a + s ∧ rect_y b == rect_y a.

(** [b] sits below [a], at the distance [s], in the same column. *)
Definition below (s : Q) (a b : Rect) : Prop :=
  rect_x b == rect_x a ∧ rect_y b == rect_y a + rect_h a + s.

(** How a linear strategy relates a child to its previous sibling. *)
Definition follows (lay : Strategy.t) (s : Q) (a b : Rect) : Prop :=
  match lay with
  | Strategy.HBox => right_of s a b
  | Strategy.VBox => below s a b
  | Strategy.BorderBox => False
  end.

(** Every child of the Layer but the first follows the child before it. *)
Definition chained (lay : Strategy.t) (L : Layer.t) : Prop :=
  ∀ i a b,
    Layer.children L !! i = Some a →
    Layer.children L !! S i = Some b →
    follows lay (Layer.spacing L) (Layer.rect_of L a) (Layer.rect_of L b).

(** Two objects agree in everything but their position. *)
Definition same_but_position (c c' : Child.t) : Prop :=
  rect_w (Child.rect c') = rect_w (Child.rect c)
  ∧ rect_h (Child.rect c') = rect_h (Child.rect c)
  ∧ Child.layer c' = Child.layer c
  ∧ Child.disabled c' = Child.disabled c
  ∧ Child.init c' = Child.init c
  ∧ Child.inits c' = Child.inits c
  ∧ Child.onEvent c' = Child.onEvent c.
End Strip.

(** ** Scenarios: concrete collaborators, stores and layers *)

Module Scenario.
Local Open Scope Q_scope.

(** Modelled from the spec: [engine/message.js] is not part of the sources;
    the envelope exposes a predicate for pointer events, taken here to hold
    of the events whose type tag is ["mouse"]. *)
Definition isMouse (m : Message) : bool := String.eqb (type m) "mouse".

Definition same_rect (a b : Rect) : bool :=
  Qeq_bool (rect_x a) (rect_x b) && Qeq_bool (rect_y a) (rect_y b)
  && Qeq_bool (rect_w a) (rect_w b) && Qeq_bool (rect_h a) (rect_h b).

(** lodash's comparison for plain children, whose own properties are
    [rect] and, once assigned, [layer]: every own property of the source
    must be found, with an equal value, in the object.  The back-references
    are compared by identity, which is what lodash's deep comparison comes
    to as long as they all refer to the one Layer at hand. *)
Definition plainIsMatch (L : Layer.t) (source object : oid) : bool :=
  same_rect (Child.rect (Layer.objs L source))
            (Child.rect (Layer.objs L object))
  && match Child.layer (Layer.objs L source) with
     | None => true
     | Some l =>
         match Child.layer (Layer.objs L object) with
         | Some l' => (l =? l')%nat
         | None => false
         end
     end.

Definition onEvent := Layer.onEvent isMouse Geometry.contains plainIsMatch.
Definition remove := Layer.remove plainIsMatch.

(** Sequencing of two calls: the second runs when the first returned. *)
Definition andThen (f : Layer.t -> Layer.t * Outcome Ret)
    (s : Layer.t * Outcome Ret) : Layer.t * Outcome Ret :=
  match s with
  | (L, Return _) => f L
  | other => other
  end.

Definition position (s : Layer.t * Outcome Ret) (o : oid) : Q * Q :=
  Geometry.xy (Layer.rect_of (fst s) o).

(** Every object is a plain child of the given size. *)
Definition plain (w h : Q) : oid -> Child.t :=
  fun _ => Child.new (mkRect 0 0 w h).

(** A child whose handler returns [v]. *)
Definition answering (v : JsVal) (r : Rect) : Child.t :=
  Child.mk r None false false 0 (fun _ => v).

Definition layerId : oid := 100%nat.

(** A horizontal strip with the default spacing 5 over 10x10 children. *)
Definition strip : Layer.t :=
  Layer.new layerId (Some Strategy.HBox) (mkRect 0 0 0 0) (plain 10 10).

(** A 100x100 Layer with bounded alignment over 20x20 children. *)
Definition bordered : Layer.t :=
  Layer.new layerId (Some Strategy.BorderBox) (mkRect 0 0 100 100)
            (plain 20 20).


(** A 50x50 Layer without layout whose children 1, 2, 3 sit at different
    places; 2 answers [true], the others [undefined]. *)
Definition handlers : oid -> Child.t :=
  fun o =>
    match o with
    | 1%nat => answering VUndefined (mkRect 0 0 10 10)
    | 2%nat => answering (VBool true) (mkRect 10 0 10 10)
    | 3%nat => answering VUndefined (mkRect 20 0 10 10)
    | _ => Child.new (mkRect 0 0 30 30)
    end.

Definition board : Layer.t :=
  Layer.mk layerId (mkRect 0 0 50 50) [1%nat; 2%nat; 3%nat] None 5 None true
           handlers.

(** The same Layer with the object 9 shown as popup. *)
Definition modal : Layer.t := fst (Layer.showPopup (Some 9%nat) board).

Definition click (px py : Q) : Message :=
  mkMessage "mouse" 0 (mkVec2 px py) 0.

Definition key : Message := mkMessage "key" 0 (mkVec2 0 0) 0.

Definition aligned (ax ay : Q) : Opts := {[ "align"%string := VPair ax ay ]}.

(** [add(1); add(2)] on the strip. *)
Definition pair_strip : Layer.t * Outcome Ret :=
  andThen (Layer.add 2%nat None) (Layer.add 1%nat None strip).

(** [add(1); add(2); remove(1); add(3)] on the strip. *)
Definition churned : Layer.t * Outcome Ret :=
  andThen (Layer.add 3%nat None) (andThen (remove 1%nat) pair_strip).

(** [add(2); add(3)] on a fresh strip. *)
Definition fresh : Layer.t * Outcome Ret :=
  andThen (Layer.add 3%nat None) (Layer.add 2%nat None strip).

(** [add(1); add(1)] on the strip. *)
Definition twice : Layer.t * Outcome Ret :=
  andThen (Layer.add 1%nat None) (Layer.add 1%nat None strip).

(** Two aligned children in the 100x100 Layer. *)
Definition pair_bordered : Layer.t * Outcome Ret :=
  andThen (Layer.add 2%nat (Some (aligned (1 # 2) (1 # 2))))
          (Layer.add 1%nat (Some (aligned 1 1)) bordered).

(** A Layer without layout in which the child 3 has the rectangle of the
    child 2, the one that answers [true]. *)
Definition twins : Layer.t :=
  Layer.mk layerId (mkRect 0 0 50 50) [1%nat; 2%nat; 3%nat] None 5 None true
    (fun o =>
       match o with
       | 1%nat => answering VUndefined (mkRect 0 0 10 10)
       | 2%nat => answering (VBool true) (mkRect 10 0 10 10)
       | _ => answering VUndefined (mkRect 10 0 10 10)
       end).


(** Options that fill half the width and leave the height alone. *)
Definition half_wide : Opts :=
  <["fill"%string := VPair (1 # 2) 0]> (aligned 0 0).

(** An options bag that switches the layout off for this child. *)
Definition unplaced : Opts :=
  <["useLayout"%string := VBool false]> (aligned 0 0).
End Scenario.

(** ** Properties of the container operations *)

Section Container.
Import Layer.

Lemma children_assign o f L : children (assign o f L) = children L.
Proof. reflexivity. Qed.

Lemma popup_assign o f L : popup (assign o f L) = popup L.
Proof. reflexivity. Qed.

Lemma layout_assign o f L : layout (assign o f L) = layout L.
Proof. reflexivity. Qed.

(** The loop of [_reloadLayout] only writes positions into the store. *)
Lemma reload_from_frame lay prev items L :
  children (reload_from lay prev items L).1 = children L
  ∧ popup (reload_from lay prev items L).1 = popup L
  ∧ layout (reload_from lay prev items L).1 = layout L.
Proof.
  revert prev L. induction items as [|item rest IH]; intros prev L; [done|].
  simpl. destruct (apply_layout lay L item (Some prev) None) as [p| |];
    [|done..].
  by destruct (IH item (assign_xy item p L)) as (-> & -> & ->).
Qed.

(** A linear strategy always finds its previous sibling in the loop. *)
Lemma reload_from_linear lay prev items L :
  lay ≠ Strategy.BorderBox →
  (reload_from lay prev items L).2 = Return RetThis.
Proof.
  intros Hlay. revert prev L.
  induction items as [|item rest IH]; intros prev L; [done|].
  simpl. destruct lay; [apply IH..|done].
Qed.

Lemma reloadLayout_frame L :
  children (_reloadLayout L).1 = children L
  ∧ popup (_reloadLayout L).1 = None
  ∧ layout (_reloadLayout L).1 = layout L.
Proof.
  unfold _reloadLayout. simpl.
  destruct (layout L) as [lay|] eqn:Hl; [|simpl; by rewrite Hl].
  destruct (children L) as [|first rest] eqn:Hc; [simpl; by rewrite Hl, Hc|].
  destruct (reload_from_frame lay first rest
              (assign_xy first (0, 0)%Q (set_popup None L))) as (-> & -> & ->).
  simpl; by rewrite Hl, Hc.
Qed.

(** [_reloadLayout] returns the Layer unless the strategy is the bounded
    alignment and two children or more are left. *)
Lemma reloadLayout_returns L :
  (layout L = Some Strategy.BorderBox → length (children L) ≤ 1) →
  (_reloadLayout L).2 = Return RetThis.
Proof.
  intros Hb. unfold _reloadLayout. simpl.
  destruct (layout L) as [lay|]; [|done].
  destruct (children L) as [|first rest] eqn:Hc; [done|].
  destruct lay; [by apply reload_from_linear..|].
  specialize (Hb eq_refl). destruct rest; [done|simpl in Hb; lia].
Qed.

Lemma add_finish_frame child L :
  popup (add_finish child L).1 = popup L
  ∧ children (add_finish child L).1 = children L ++ [child]
  ∧ (add_finish child L).2 = Return (RetChild child).
Proof. done. Qed.

(** [add] never writes the popup slot, and appends the child unless it
    raises. *)
Lemma add_frame child opts L :
  popup (add child opts L).1 = popup L
  ∧ (children (add child opts L).1 = children L ++ [child]
     ∧ (add child opts L).2 ≠ TypeError
     ∨ children (add child opts L).1 = children L
       ∧ (add child opts L).2 ≠ Return (RetChild child)).
Proof.
  unfold add. simpl.
  destruct (layout L) as [lay|]; [|by split; [|left]].
  set (L1 := match fill_of opts with Some _ => _ | None => _ end).
  assert (popup L1 = popup L ∧ children L1 = children L) as [Hp Hc].
  { subst L1. by destruct (fill_of opts). }
  destruct (uses_layout opts); [|simpl; rewrite Hp, Hc; by split; [|left]].
  destruct (negb _ || negb _).
  - destruct (apply_layout lay L1 child _ _); simpl; rewrite ?Hp, ?Hc;
      (split; [done|]); [by left|by right|by left].
  - simpl; rewrite Hp, Hc; by split; [|left].
Qed.
End Container.

(** ** Properties of the event dispatch *)

Section Dispatching.
Import Layer.

Variable isMouseEvent : Message -> bool.
Variable contains : Rect -> Vec2 -> bool.
Variable baseIsMatch : t -> oid -> oid -> bool.

Let matches := Layer.matches baseIsMatch.
Let lodash_remove := Layer.lodash_remove baseIsMatch.
Let remove := Layer.remove baseIsMatch.
Let forward := Layer.forward baseIsMatch.
Let rejects := Layer.rejects isMouseEvent contains.
Let rewrap := Layer.rewrap isMouseEvent.
Let onEvent := Layer.onEvent isMouseEvent contains baseIsMatch.

(** [_.matches(child)] accepts [child] itself. *)
Lemma matches_self L c : matches L c c = true.
Proof.
  unfold matches, Layer.matches. by rewrite Nat.eqb_refl.
Qed.

Lemma lodash_remove_spec L child array x :
  x ∈ lodash_remove L child array ↔ matches L child x = false ∧ x ∈ array.
Proof.
  unfold lodash_remove, Layer.lodash_remove. by rewrite list_elem_of_filter.
Qed.

Lemma lodash_remove_absent L child array :
  child ∉ lodash_remove L child array.
Proof.
  rewrite lodash_remove_spec. intros [H _].
  by rewrite matches_self in H.
Qed.

(** Nothing is pulled out when no element is accepted. *)
Lemma lodash_remove_none L child array :
  (∀ c, c ∈ array → matches L child c = false) →
  lodash_remove L child array = array.
Proof.
  intros H. induction array as [|a array IH]; [done|].
  unfold lodash_remove, Layer.lodash_remove. rewrite filter_cons.
  fold (Layer.matches baseIsMatch) matches.
  rewrite decide_True by (apply H; left).
  f_equal. apply IH. intros c Hc. apply H. by right.
Qed.

(** Moving a child to the front keeps the sequence free of duplicates. *)
Lemma promote_NoDup L c array :
  NoDup array → NoDup (c :: lodash_remove L c array).
Proof.
  intros Hnd. apply NoDup_cons_2.
  - apply lodash_remove_absent.
  - by apply NoDup_filter.
Qed.

(** Visiting children none of which takes the event: all the enabled ones
    are invoked and the Layer is left as it was. *)
Lemma forward_no_capture event items L :
  (∀ c, c ∈ items → captures L event c = false) →
  forward event items L = (L, calls_to L event items).
Proof.
  induction items as [|c rest IH]; intros H; [done|].
  assert (Hc : captures L event c = false) by (apply H; left).
  assert (Hrest : forward event rest L = (L, calls_to L event rest)).
  { apply IH. intros x Hx. apply H. by right. }
  unfold forward in *. unfold captures in Hc. simpl.
  unfold calls_to. rewrite filter_cons.
  destruct (Child.disabled (objs L c)) eqn:Hd; simpl in Hc.
  - rewrite decide_False by done. exact Hrest.
  - rewrite Hc, Hrest, decide_True by done. done.
Qed.

(** Visiting children the first taker of which is [c]: the enabled children
    before [c] and [c] itself are invoked, nobody after it, and [c] is
    moved to the front. *)
Lemma forward_capture event pre c post L :
  (∀ x, x ∈ pre → captures L event x = false) →
  captures L event c = true →
  forward event (pre ++ c :: post) L
  = (set_children (c :: lodash_remove L c (children L)) L,
     calls_to L event pre ++ [CallChild c event]).
Proof.
  intros Hpre Hc. induction pre as [|x pre IH].
  - unfold forward, captures in *. simpl.
    destruct (Child.disabled (objs L c)); [done|]. simpl in Hc.
    by rewrite Hc.
  - assert (Hx : captures L event x = false) by (apply Hpre; left).
    assert (IH' := IH (fun y Hy => Hpre y (list_elem_of_further _ _ _ Hy))).
    unfold forward, captures in *. simpl.
    unfold calls_to. rewrite filter_cons.
    destruct (Child.disabled (objs L x)) eqn:Hd; simpl in Hx.
    + rewrite decide_False by done. exact IH'.
    + rewrite Hx, IH', decide_True by done. done.
Qed.

(** Whatever the items, the loop either leaves the Layer alone or moves
    one of them to the front, and it invokes children only. *)
Lemma forward_frame event items L :
  ((forward event items L).1 = L
   ∨ ∃ c, (forward event items L).1
          = set_children (c :: lodash_remove L c (children L)) L)
  ∧ Forall (fun call => ∃ c, call = CallChild c event)
           (forward event items L).2.
Proof.
  induction items as [|c rest [IH1 IH2]]; [by split; [left|]|].
  unfold forward in *. simpl.
  destruct (Child.disabled (objs L c)); [done|].
  destruct (Js.is_true _).
  - split; [right; by exists c|]. repeat constructor. by exists c.
  - destruct (Layer.forward baseIsMatch event rest L) as [L' calls].
    split; [done|]. constructor; [by exists c|done].
Qed.

(** The shape of every dispatch. *)
Lemma onEvent_unfold event L :
  onEvent event L =
    if rejects L event then (L, VBool false, [])
    else match popup L with
         | Some p => (L, VUndefined, [CallPopup p (rewrap L event)])
         | None =>
             if eventForwarding L
             then ((forward (rewrap L event) (children L) L).1, VUndefined,
                   (forward (rewrap L event) (children L) L).2)
             else (L, VUndefined, [])
         end.
Proof.
  unfold onEvent, Layer.onEvent, rejects, rewrap, forward.
  destruct (Layer.rejects _ _ _ _); [done|].
  destruct (popup L); [done|]. destruct (eventForwarding L); [|done].
  by destruct (Layer.forward _ _ _ _).
Qed.

(** C1 (amended).  While a popup is shown, no child of the sequence has its
    [onEvent] invoked, whatever the event and whatever [eventForwarding]
    says, and the Layer is left as it was.  An event that passes the hit
    test is delivered, rewrapped, to the popup and to nobody else; a pointer
    event that the hit test turns away reaches nobody, the popup
    included. *)
Theorem popup_intercepts event L p :
  popup L = Some p →
  (onEvent event L).1.1 = L
  ∧ (∀ c m, CallChild c m ∉ (onEvent event L).2)
  ∧ (rejects L event = false →
     (onEvent event L).2 = [CallPopup p (rewrap L event)])
  ∧ (rejects L event = true → (onEvent event L).2 = []).
Proof.
  intros Hp. rewrite onEvent_unfold, Hp.
  destruct (rejects L event); simpl.
  - repeat split; [|done..]. intros c m H. by apply elem_of_nil in H.
  - repeat split; [|done..]. intros c m H.
    apply list_elem_of_singleton in H. discriminate.
Qed.

(** C2.  With forwarding on, no popup and an event that passes the hit
    test, the children are visited in sequence order and the disabled ones
    are passed over.  When the child at index [i] is the first to answer
    [true], exactly the enabled children up to index [i] are invoked, so
    nobody after [i] is, and that child then sits at index 0.  An answer
    other than [true] lets the iteration go on: when nobody answers [true],
    every enabled child is invoked and the sequence stays as it was. *)
Theorem forwarding_promotes event L :
  popup L = None →
  eventForwarding L = true →
  rejects L event = false →
  (∀ i c,
      children L !! i = Some c →
      captures L (rewrap L event) c = true →
      (∀ j x, j < i → children L !! j = Some x →
              captures L (rewrap L event) x = false) →
      (onEvent event L).2
      = calls_to L (rewrap L event) (take (S i) (children L))
      ∧ children (onEvent event L).1.1 !! 0 = Some c
      ∧ children (onEvent event L).1.1
        = c :: lodash_remove L c (children L))
  ∧ ((∀ c, c ∈ children L → captures L (rewrap L event) c = false) →
     onEvent event L
     = (L, VUndefined, calls_to L (rewrap L event) (children L))).
Proof.
  intros Hp Hf Hr. rewrite onEvent_unfold, Hr, Hp, Hf. split.
  - intros i c Hi Hc Hbefore.
    assert (Hpre : ∀ x, x ∈ take i (children L) →
                        captures L (rewrap L event) x = false).
    { intros x Hx. apply list_elem_of_lookup in Hx as [j Hj].
      apply lookup_take_Some in Hj as [Hj Hlt]. by apply (Hbefore j). }
    pose proof (forward_capture _ _ c (drop (S i) (children L)) L Hpre Hc)
      as Hfwd.
    rewrite (take_drop_middle _ _ _ Hi) in Hfwd. rewrite Hfwd. simpl.
    repeat split.
    rewrite (take_S_r _ _ _ Hi). unfold calls_to.
    rewrite filter_app, fmap_app, filter_cons, filter_nil.
    unfold captures in Hc. apply andb_true_iff in Hc as [Hd _].
    apply negb_true_iff in Hd. by rewrite decide_True.
  - intros Hnone. by rewrite forward_no_capture.
Qed.

(** C4 (amended).  [onEvent] of a Layer never returns [true]: it returns
    [false] when the hit test turns a pointer event away and [undefined] in
    every other case, also when the popup or a child has taken the event.
    A child of an enclosing Layer that answers with what this [onEvent]
    returns is therefore never taken to have captured the event. *)
Theorem onEvent_result event L :
  (onEvent event L).1.2
  = (if rejects L event then VBool false else VUndefined)
  ∧ Js.is_true (onEvent event L).1.2 = false
  ∧ (∀ (outer : t) (c : oid) (m : Message),
        Child.onEvent (objs outer c) m = (onEvent event L).1.2 →
        captures outer m c = false).
Proof.
  assert (Hres : (onEvent event L).1.2
                 = (if rejects L event then VBool false else VUndefined)).
  { rewrite onEvent_unfold. destruct (rejects L event); [done|].
    destruct (popup L); [done|]. by destruct (eventForwarding L). }
  rewrite Hres. split; [done|]. split; [by destruct (rejects L event)|].
  intros outer c m Hanswer. unfold captures. rewrite Hanswer.
  destruct (rejects L event); apply andb_false_r.
Qed.

(** C5.  A pointer event whose position lies outside the rectangle of a
    Layer of nonzero area is answered [false], and neither the popup nor
    any child is invoked. *)
Theorem outside_pointer_rejected event L :
  isMouseEvent event = true →
  ¬ (rect_w (rect L) * rect_h (rect L) == 0)%Q →
  contains (rect L) (data event) = false →
  onEvent event L = (L, VBool false, []).
Proof.
  intros Hm Harea Hout. rewrite onEvent_unfold.
  unfold rejects, Layer.rejects, Geometry.truthy. rewrite Hm, Hout.
  destruct (Qeq_bool _ 0) eqn:Hz; [|done].
  by apply Qeq_bool_iff in Hz.
Qed.

(** C3 (amended).  [remove] and [clear] leave the popup slot [null], in
    whatever way they end, and [clear] always returns the Layer; [add] does
    not touch the popup slot, so a popup shown before [add] is still shown
    after it. *)
Theorem popup_after_mutation L child opts :
  popup (remove child L).1 = None
  ∧ popup (clear L).1 = None
  ∧ (clear L).2 = Return RetThis
  ∧ popup (add child opts L).1 = popup L.
Proof.
  repeat split.
  - apply reloadLayout_frame.
  - apply reloadLayout_frame.
  - apply reloadLayout_returns. simpl. lia.
  - apply add_frame.
Qed.

(** Where [remove] of an object that is no child is the no-op it is meant
    to be: when lodash's property comparison matches the object with no
    element, [remove] does what [_reloadLayout()] alone does, so the sequence
    is left as it was and the popup slot is [null]; and the Layer is
    returned unless it is a bounded-alignment Layer of two children or
    more. *)
Lemma remove_absent L child :
  child ∉ children L →
  (∀ c, c ∈ children L → baseIsMatch L child c = false) →
  remove child L = _reloadLayout L
  ∧ children (remove child L).1 = children L
  ∧ popup (remove child L).1 = None
  ∧ ((layout L = Some Strategy.BorderBox → length (children L) ≤ 1) →
     (remove child L).2 = Return RetThis).
Proof.
  intros Habsent Hmatch.
  assert (Hsame : remove child L = _reloadLayout L).
  { unfold remove, Layer.remove.
    fold (Layer.lodash_remove baseIsMatch) lodash_remove.
    rewrite lodash_remove_none; [by destruct L|].
    intros c Hc. unfold matches, Layer.matches.
    rewrite (Hmatch c Hc), orb_false_r. apply Nat.eqb_neq.
    intros ->. by apply Habsent. }
  rewrite Hsame. split_and!; [done|apply reloadLayout_frame..|].
  apply reloadLayout_returns.
Qed.

(** C8 (amended).  A sequence without duplicates stays without duplicates
    under [remove], [clear] and the promotion made by [onEvent], and under
    [add] of a child that is not yet in the sequence; an [add] that returns
    after being given a child of the sequence leaves that child in it
    twice. *)
Theorem children_NoDup_preserved L :
  NoDup (children L) →
  (∀ child, NoDup (children (remove child L).1))
  ∧ NoDup (children (clear L).1)
  ∧ (∀ event, NoDup (children (onEvent event L).1.1))
  ∧ (∀ child opts, child ∉ children L →
                   NoDup (children (add child opts L).1))
  ∧ (∀ child opts, child ∈ children L →
                   (add child opts L).2 = Return (RetChild child) →
                   ¬ NoDup (children (add child opts L).1)).
Proof.
  intros Hnd. repeat split.
  - intros child. unfold remove, Layer.remove.
    destruct (reloadLayout_frame
                (set_children (Layer.lodash_remove baseIsMatch L child
                                 (children L)) L)) as [-> _].
    simpl. by apply NoDup_filter.
  - unfold clear. destruct (reloadLayout_frame (set_children [] L)) as [-> _].
    apply NoDup_nil_2.
  - intros event. rewrite onEvent_unfold.
    destruct (rejects L event); [done|]. destruct (popup L); [done|].
    destruct (eventForwarding L); [|done]. simpl.
    destruct (forward_frame (rewrap L event) (children L) L)
      as [[->|[c ->]] _]; [done|].
    simpl. by apply promote_NoDup.
  - intros child opts Hnew.
    destruct (add_frame child opts L) as [_ [[-> _]|[-> _]]]; [|done].
    apply NoDup_app. repeat split; [done| |apply NoDup_singleton].
    intros x Hx Hx'. apply list_elem_of_singleton in Hx'. by subst.
  - intros child opts Hold Hret.
    destruct (add_frame child opts L) as [_ [[-> _]|[_ Hne]]]; [|done].
    intros Hdup. apply NoDup_app in Hdup as (_ & Hdisjoint & _).
    apply (Hdisjoint child Hold). by apply list_elem_of_singleton.
Qed.
End Dispatching.

(** ** Properties of the layout strategies *)

Section Placement.
Import Layer.
Local Open Scope Q_scope.

Lemma border_axis_clamp size align child :
  border_axis size align child
  = Spec.clamp (size * align - child / 2) 0 (size - child).
Proof. reflexivity. Qed.




(** C10 (amended).  [Layer.HBox] and [Layer.VBox] raise when there is no
    previous sibling and return a position when there is one.  [add] on an
    empty Layer with one of these layouts raises, and does not push the
    child, when the options bag is still non-empty once [fill] and
    [useLayout] are taken out, provided [opts.useLayout] is not [false]. *)
Theorem linear_add_without_sibling L child opts :
  children L = [] →
  layout L = Some Strategy.HBox ∨ layout L = Some Strategy.VBox →
  uses_layout opts = true →
  isEmpty (omit opts) = false →
  (add child opts L).2 = TypeError
  ∧ children (add child opts L).1 = []
  ∧ HBox L child None = TypeError
  ∧ VBox L child None = TypeError
  ∧ (∀ p, ∃ xy, HBox L child (Some p) = Return xy)
  ∧ (∀ p, ∃ xy, VBox L child (Some p) = Return xy).
Proof.
  intros Hc Hlay Huse Hopts.
  assert (Hadd : add child opts L
                 = (match fill_of opts with
                    | Some f =>
                        let L0 := assign child (Child.set_layer (self L)) L in
                        assign_wh child
                          (fill_axis (rect_w (rect L0)) f 0
                             (rect_w (rect_of L0 child)) - spacing L0 * 2,
                           fill_axis (rect_h (rect L0)) f 1
                             (rect_h (rect_of L0 child)) - spacing L0 * 2)
                          L0
                    | None => assign child (Child.set_layer (self L)) L
                    end, TypeError)).
  { unfold add. simpl. rewrite Huse, Hopts.
    destruct Hlay as [-> | ->]; destruct (fill_of opts); simpl;
      by rewrite Hc. }
  rewrite Hadd. repeat split; eauto.
  by destruct (fill_of opts).
Qed.

(** C7 (the code at the failing input).  After [add(1); add(2); remove(1);
    add(3)] on a horizontal strip with spacing 5, the children 2 and 3 sit
    at (0, 0) and (15, 0); added in that order to a fresh strip they sit at
    (5, 5) and (20, 5). *)
Theorem reload_resets_to_origin :
  children Scenario.churned.1 = [2; 3]%nat
  ∧ children Scenario.fresh.1 = [2; 3]%nat
  ∧ Scenario.position Scenario.churned 2%nat = (0, 0)
  ∧ Scenario.position Scenario.churned 3%nat = (15, 0)
  ∧ Scenario.position Scenario.fresh 2%nat = (5, 5)
  ∧ Scenario.position Scenario.fresh 3%nat = (20, 5).
Proof. vm_compute. repeat split. Qed.
End Placement.

(** ** The theorems at concrete inputs *)

Section Instances.
Import Layer Scenario.
Local Open Scope Q_scope.

(** A key press on the modal Layer goes to the popup 9 and to no child. *)
Lemma popup_intercepts_witness :
  popup modal = Some 9%nat
  ∧ (Scenario.onEvent key modal).2 = [CallPopup 9%nat key]
  ∧ (∀ c m, CallChild c m ∉ (Scenario.onEvent key modal).2).
Proof.
  destruct (popup_intercepts isMouse Geometry.contains plainIsMatch
              key modal 9%nat eq_refl) as (_ & Hnone & Hpass & _).
  split; [reflexivity|]. split; [exact (Hpass eq_refl)|exact Hnone].
Defined.

(** A click at (60, 60) on the modal 50x50 Layer does not reach the
    popup. *)
Lemma popup_misses_outside_click :
  popup modal = Some 9%nat
  ∧ (Scenario.onEvent (click 60 60) modal).2 = [].
Proof. split; reflexivity. Qed.

(** [A, B, C] with B answering [true]: A and B are invoked, C is not, and
    the sequence becomes [B, A, C]. *)
Lemma forwarding_promotes_witness :
  (Scenario.onEvent key board).2 = [CallChild 1%nat key; CallChild 2%nat key]
  ∧ children (Scenario.onEvent key board).1.1 = [2; 1; 3]%nat.
Proof.
  destruct (forwarding_promotes isMouse Geometry.contains plainIsMatch
              key board eq_refl eq_refl eq_refl) as [Hcapture _].
  destruct (Hcapture 1%nat 2%nat eq_refl eq_refl) as (Hcalls & _ & Hseq).
  - intros j x Hj Hx. destruct j as [|j]; [|lia].
    injection Hx as <-. reflexivity.
  - split; [exact Hcalls|exact Hseq].
Defined.

(** The child 2 takes the key press and is promoted, yet the Layer returns
    [undefined]. *)
Lemma capture_returns_undefined :
  captures board key 2%nat = true
  ∧ children (Scenario.onEvent key board).1.1 = [2; 1; 3]%nat
  ∧ (Scenario.onEvent key board).1.2 = VUndefined.
Proof. repeat split. Qed.

(** Layer (0, 0, 50, 50), pointer event at (60, 60). *)
Lemma outside_pointer_rejected_witness :
  Scenario.onEvent (click 60 60) board = (board, VBool false, []).
Proof.
  apply (outside_pointer_rejected isMouse Geometry.contains plainIsMatch).
  - reflexivity.
  - intros H. vm_compute in H. discriminate H.
  - reflexivity.
Defined.

(** [add] on the modal Layer leaves the popup 9 in its slot. *)
Lemma add_keeps_popup :
  popup modal = Some 9%nat
  ∧ popup (add 4%nat None modal).1 = Some 9%nat
  ∧ (add 4%nat None modal).2 = Return (RetChild 4%nat).
Proof. repeat split. Qed.

(** Removing the object 7, which is no child of the strip [1, 2]. *)
Lemma remove_absent_witness :
  Scenario.remove 7%nat pair_strip.1 = _reloadLayout pair_strip.1
  ∧ children (Scenario.remove 7%nat pair_strip.1).1 = [1; 2]%nat
  ∧ popup (Scenario.remove 7%nat pair_strip.1).1 = None
  ∧ (Scenario.remove 7%nat pair_strip.1).2 = Return RetThis.
Proof.
  destruct (remove_absent plainIsMatch pair_strip.1 7%nat)
    as (Hsame & Hkept & Hpopup & Hret).
  - intros H. vm_compute in H.
    apply list_elem_of_In in H. simpl in H. intuition discriminate.
  - intros c H. apply list_elem_of_In in H. vm_compute in H.
    destruct H as [<-|[<-|[]]]; reflexivity.
  - split_and!; [exact Hsame|exact Hkept|exact Hpopup|].
    apply Hret. intros H. discriminate H.
Defined.

(** C6 (the code at the failing input).  On the bounded-alignment Layer
    with the children [1, 2], the object 7 is no child and lodash's
    comparison matches it with neither child, so [_.remove] pulls nothing
    out; [remove(7)] then raises a TypeError where it is to return the
    Layer. *)
Lemma remove_absent_raises :
  children pair_bordered.1 = [1; 2]%nat
  ∧ lodash_remove plainIsMatch pair_bordered.1 7%nat [1; 2]%nat
    = [1; 2]%nat
  ∧ (Scenario.remove 7%nat pair_bordered.1).2 = TypeError.
Proof. vm_compute. repeat split. Qed.

(** [add(1); add(1)] holds the child 1 twice. *)
Lemma add_twice_duplicates :
  NoDup (children strip)
  ∧ children twice.1 = [1; 1]%nat
  ∧ ¬ NoDup (children twice.1).
Proof.
  split; [apply NoDup_nil_2|]. split; [reflexivity|].
  intros H. vm_compute in H. apply NoDup_cons_1_1 in H. apply H. left.
Qed.

(** The board [1, 2, 3] through each of the mutating operations. *)
Lemma children_NoDup_preserved_witness :
  NoDup (children (Scenario.remove 2%nat board).1)
  ∧ NoDup (children (clear board).1)
  ∧ NoDup (children (Scenario.onEvent key board).1.1)
  ∧ NoDup (children (add 4%nat None board).1).
Proof.
  assert (Hboard : NoDup (children board)).
  { apply (bool_decide_unpack _). exact I. }
  destruct (children_NoDup_preserved isMouse Geometry.contains plainIsMatch
              board Hboard) as (Hremove & Hclear & Hevent & Hadd & _).
  repeat split; [apply Hremove|exact Hclear|apply Hevent|].
  apply Hadd. intros H. apply list_elem_of_In in H. simpl in H.
  intuition discriminate.
Defined.



(** [add(1, {align: [0, 0]})] on the empty strip raises. *)
Lemma linear_add_without_sibling_witness :
  (add 1%nat (Some (aligned 0 0)) strip).2 = TypeError
  ∧ children (add 1%nat (Some (aligned 0 0)) strip).1 = [].
Proof.
  destruct (linear_add_without_sibling strip 1%nat (Some (aligned 0 0))
              eq_refl (or_introl eq_refl) eq_refl eq_refl)
    as (Hraise & Hkept & _).
  split; [exact Hraise|exact Hkept].
Defined.

(** [add(1, {useLayout: false, align: [0, 0]})] on the empty strip returns
    the child: the strategy is not called. *)
Lemma unplaced_add_returns :
  children strip = []
  ∧ layout strip = Some Strategy.HBox
  ∧ isEmpty (omit (Some unplaced)) = false
  ∧ (add 1%nat (Some unplaced) strip).2 = Return (RetChild 1%nat)
  ∧ children (add 1%nat (Some unplaced) strip).1 = [1%nat].
Proof. vm_compute. repeat split. Qed.

(** What lodash's comparison does to a look-alike: the object 7 was never
    added, has the rectangle of the child 1 of a Layer without layout, and
    [remove(7)] pulls the child 1 out. *)
Example remove_lookalike :
  let L := mk layerId (mkRect 0 0 50 50) [1; 2]%nat None 5 None true
              (fun o => match o with
                        | 2%nat => Child.new (mkRect 10 0 10 10)
                        | _ => Child.new (mkRect 0 0 10 10)
                        end) in
  children (Scenario.remove 7%nat L).1 = [2%nat].
Proof. reflexivity. Qed.
End Instances.

(** ** Further properties: what the recompute of positions does *)

Section Relayout.
Import Layer.
Local Open Scope Q_scope.

Variable baseIsMatch : t -> oid -> oid -> bool.

Lemma objs_assign_eq o f L : objs (assign o f L) o = f (objs L o).
Proof. unfold assign. simpl. apply fn_lookup_insert. Qed.

Lemma objs_assign_ne o f L x : o ≠ x → objs (assign o f L) x = objs L x.
Proof. intros Hne. unfold assign. simpl. by apply fn_lookup_insert_ne. Qed.

Lemma same_but_position_refl c : Strip.same_but_position c c.
Proof. by repeat split. Qed.

Lemma same_but_position_trans c1 c2 c3 :
  Strip.same_but_position c1 c2 → Strip.same_but_position c2 c3 →
  Strip.same_but_position c1 c3.
Proof.
  unfold Strip.same_but_position.
  intros (?&?&?&?&?&?&?) (?&?&?&?&?&?&?). repeat split; congruence.
Qed.

Lemma assign_xy_same_but_position o p L x :
  Strip.same_but_position (objs L x) (objs (assign_xy o p L) x).
Proof.
  unfold assign_xy. destruct (decide (o = x)) as [->|Hne].
  - rewrite objs_assign_eq. by repeat split.
  - rewrite objs_assign_ne by done. apply same_but_position_refl.
Qed.

(** What a linear strategy returns in the loop of [_reloadLayout]. *)
Lemma linear_step lay L item prev :
  lay ≠ Strategy.BorderBox →
  ∃ p, apply_layout lay L item (Some prev) None = Return p
       ∧ ∀ r, Geometry.xy r = p →
              Strip.follows lay (spacing L) (rect_of L prev) r.
Proof.
  intros Hlay. destruct lay; [| |done]; simpl; eexists; (split; [done|]);
    intros r Hr; injection Hr as Hx Hy;
    unfold Strip.right_of, Strip.below; rewrite Hx, Hy; simpl; split; ring.
Qed.

(** The loop leaves alone the fields of the Layer, the objects it does not
    visit, and everything but the position of those it visits. *)
Lemma reload_from_store lay prev items L :
  spacing (reload_from lay prev items L).1 = spacing L
  ∧ rect (reload_from lay prev items L).1 = rect L
  ∧ self (reload_from lay prev items L).1 = self L
  ∧ eventForwarding (reload_from lay prev items L).1 = eventForwarding L
  ∧ (∀ x, Strip.same_but_position
            (objs L x) (objs (reload_from lay prev items L).1 x))
  ∧ (∀ x, x ∉ items → objs (reload_from lay prev items L).1 x = objs L x).
Proof.
  revert prev L. induction items as [|item rest IH]; intros prev L.
  { simpl. split_and!; try done; intros x; apply same_but_position_refl. }
  simpl. destruct (apply_layout lay L item (Some prev) None) as [p| |];
    [|split_and!; try done; intros x; apply same_but_position_refl..].
  destruct (IH item (assign_xy item p L)) as (-> & -> & -> & -> & Hsame & Hout).
  split_and!; try done.
  - intros x. eapply same_but_position_trans; [|apply Hsame].
    apply assign_xy_same_but_position.
  - intros x Hx. apply not_elem_of_cons in Hx as [Hne Hx].
    rewrite Hout by done. unfold assign_xy. by rewrite objs_assign_ne.
Qed.

(** Over distinct items, a linear strategy leaves every item behind the one
    before it. *)
Lemma reload_from_chain lay prev items L :
  lay ≠ Strategy.BorderBox →
  NoDup (prev :: items) →
  ∀ i a b,
    (prev :: items) !! i = Some a →
    (prev :: items) !! S i = Some b →
    Strip.follows lay (spacing L)
      (rect_of (reload_from lay prev items L).1 a)
      (rect_of (reload_from lay prev items L).1 b).
Proof.
  intros Hlay. revert prev L.
  induction items as [|item rest IH]; intros prev L Hnd i a b Ha Hb.
  { by destruct i. }
  apply NoDup_cons in Hnd as [Hprev Hnd].
  destruct (linear_step lay L item prev Hlay) as (p & Hp & Hfollows).
  simpl. rewrite Hp.
  destruct (reload_from_store lay item rest (assign_xy item p L))
    as (Hs & _ & _ & _ & _ & Hout).
  destruct i as [|i].
  - simpl in Ha, Hb. injection Ha as <-. injection Hb as <-.
    assert (Hitem : item ∉ rest) by by apply NoDup_cons in Hnd as [? _].
    assert (Hprev' : prev ∉ rest).
    { intros H. apply Hprev. by right. }
    assert (Hne : item ≠ prev).
    { intros ->. apply Hprev. by left. }
    unfold rect_of. rewrite !Hout by done.
    unfold assign_xy at 1. rewrite objs_assign_ne by done.
    apply Hfollows. unfold assign_xy. rewrite objs_assign_eq. by destruct p.
  - specialize (IH item (assign_xy item p L) Hnd i a b Ha Hb).
    simpl in IH. exact IH.
Qed.

(** [_reloadLayout] over distinct children with a linear strategy: it
    returns, the first child is at the origin and the others are chained. *)
Lemma reloadLayout_strip lay L :
  layout L = Some lay →
  lay ≠ Strategy.BorderBox →
  NoDup (children L) →
  (_reloadLayout L).2 = Return RetThis
  ∧ (∀ first, head (children L) = Some first →
              Geometry.xy (rect_of (_reloadLayout L).1 first) = (0, 0))
  ∧ Strip.chained lay (_reloadLayout L).1.
Proof.
  intros Hl Hlay Hnd. split.
  { apply reloadLayout_returns. rewrite Hl. intros [= ->]. done. }
  destruct (reloadLayout_frame L) as (Hc & _ & _).
  unfold Strip.chained. rewrite Hc. clear Hc.
  unfold _reloadLayout. simpl. rewrite Hl.
  destruct (children L) as [|first rest] eqn:Hc; [by split|].
  set (L0 := assign_xy first (0, 0) (set_popup None L)).
  destruct (reload_from_store lay first rest L0) as (Hs & _ & _ & _ & _ & Hout).
  split.
  - intros ? [= <-]. unfold rect_of. rewrite Hout.
    + unfold L0, assign_xy. by rewrite objs_assign_eq.
    + by apply NoDup_cons in Hnd as [? _].
  - intros i a b Ha Hb. rewrite Hs.
    by apply (reload_from_chain lay first rest L0 Hlay Hnd i a b).
Qed.

(** X1.  [remove(child)] on a Layer with a linear layout and distinct
    children returns the Layer and leaves a regular strip: the first of the
    children that are left is at the origin (0, 0), and every other one
    follows the child before it at the distance [spacing] (to its right for
    [HBox], below it for [VBox]). *)
Theorem remove_relays_strip lay L child :
  layout L = Some lay →
  lay ≠ Strategy.BorderBox →
  NoDup (children L) →
  (remove baseIsMatch child L).2 = Return RetThis
  ∧ (∀ first, head (children (remove baseIsMatch child L).1) = Some first →
              Geometry.xy (rect_of (remove baseIsMatch child L).1 first)
              = (0, 0))
  ∧ Strip.chained lay (remove baseIsMatch child L).1.
Proof.
  intros Hl Hlay Hnd. unfold remove.
  set (L1 := set_children _ L).
  assert (Hnd1 : NoDup (children L1)) by by apply NoDup_filter.
  destruct (reloadLayout_strip lay L1 Hl Hlay Hnd1) as (Hret & Hfirst & Hchain).
  destruct (reloadLayout_frame L1) as (Hc & _ & _).
  split; [done|]. split; [|done].
  intros first. rewrite Hc. apply Hfirst.
Qed.

(** X2.  [remove(child)] and [clear()] write nothing but positions: every
    object keeps its size, its back-reference to the Layer (also the child
    that was removed), its [disabled] flag and its handler; an object that
    was not in the sequence is not touched at all, and [clear] touches no
    object.  The rectangle, the spacing, the layout and [eventForwarding] of
    the Layer stay as they were. *)
Theorem remove_moves_only L child :
  (∀ x, Strip.same_but_position
          (objs L x) (objs (remove baseIsMatch child L).1 x))
  ∧ (∀ x, x ∉ children L → objs (remove baseIsMatch child L).1 x = objs L x)
  ∧ (∀ x, objs (clear L).1 x = objs L x)
  ∧ (rect (remove baseIsMatch child L).1 = rect L
     ∧ spacing (remove baseIsMatch child L).1 = spacing L
     ∧ layout (remove baseIsMatch child L).1 = layout L
     ∧ eventForwarding (remove baseIsMatch child L).1 = eventForwarding L)
  ∧ (rect (clear L).1 = rect L
     ∧ spacing (clear L).1 = spacing L
     ∧ layout (clear L).1 = layout L
     ∧ eventForwarding (clear L).1 = eventForwarding L).
Proof.
  assert (Hgen : ∀ L0,
    (∀ x, Strip.same_but_position (objs L0 x) (objs (_reloadLayout L0).1 x))
    ∧ (∀ x, x ∉ children L0 → objs (_reloadLayout L0).1 x = objs L0 x)
    ∧ rect (_reloadLayout L0).1 = rect L0
    ∧ spacing (_reloadLayout L0).1 = spacing L0
    ∧ eventForwarding (_reloadLayout L0).1 = eventForwarding L0).
  { intros L0. unfold _reloadLayout. simpl.
    destruct (layout L0) as [lay|];
      [|split_and!; try done; intros x; apply same_but_position_refl].
    destruct (children L0) as [|first rest];
      [split_and!; try done; intros x; apply same_but_position_refl|].
    set (L1 := assign_xy first (0, 0) (set_popup None L0)).
    destruct (reload_from_store lay first rest L1)
      as (-> & -> & _ & -> & Hsame & Hout).
    split_and!; try done.
    - intros x. eapply same_but_position_trans; [|apply Hsame].
      apply (assign_xy_same_but_position first (0, 0) (set_popup None L0)).
    - intros x Hx. apply not_elem_of_cons in Hx as [Hne Hx].
      rewrite Hout by done. unfold L1, assign_xy. by rewrite objs_assign_ne. }
  unfold remove, clear.
  set (L1 := set_children (lodash_remove baseIsMatch L child (children L)) L).
  destruct (Hgen L1) as (Hsame & Hout & Hr & Hs & Hf).
  destruct (reloadLayout_frame L1) as (_ & _ & Hl).
  split_and!; try done.
  - intros x Hx. apply Hout. simpl. intros Hin. apply Hx.
    unfold lodash_remove in Hin. by apply list_elem_of_filter in Hin as [_ ?].
  - intros x. destruct (Hgen (set_children [] L)) as (_ & Hout' & _).
    apply Hout'. simpl. apply not_elem_of_nil.
  - by destruct (Hgen (set_children [] L)) as (_ & _ & -> & _).
  - by destruct (Hgen (set_children [] L)) as (_ & _ & _ & -> & _).
  - by destruct (reloadLayout_frame (set_children [] L)) as (_ & _ & ->).
  - by destruct (Hgen (set_children [] L)) as (_ & _ & _ & _ & ->).
Qed.
End Relayout.

(** ** Further properties: [add] *)

Section Adding.
Import Layer.
Local Open Scope Q_scope.

(** Every path through [add]. *)
Ltac add_paths child opts L :=
  unfold add, add_finish; simpl;
  destruct (layout L) as [?|] eqn:Hlayout; simpl;
  [ destruct (fill_of opts) as [f|] eqn:Hfill; simpl;
    (destruct (uses_layout opts) eqn:Huses; simpl;
     [ destruct (negb (length (children L) =? 0)%nat
                 || negb (isEmpty (omit opts))) eqn:Hcall; simpl;
       [ match goal with
         | |- context [apply_layout ?l ?S child ?p ?o] =>
             destruct (apply_layout l S child p o) as [xy| |] eqn:Hplace
         end; simpl
       | ]
     | ])
  | ].

(** Reading the store after the assignments made by [add]. *)
Ltac read_store :=
  unfold rect_of, assign_xy, assign_wh, assign, Child.run_init; simpl;
  repeat first [ rewrite fn_lookup_insert
               | rewrite fn_lookup_insert_ne by done ];
  simpl.

(** The objects of a Layer other than the child handed to [add] are not
    touched by it. *)
Lemma add_others child opts L x :
  x ≠ child → objs (add child opts L).1 x = objs L x.
Proof.
  intros Hne. add_paths child opts L; by read_store.
Qed.

Lemma add_fields child opts L :
  spacing (add child opts L).1 = spacing L
  ∧ rect (add child opts L).1 = rect L
  ∧ layout (add child opts L).1 = layout L
  ∧ eventForwarding (add child opts L).1 = eventForwarding L.
Proof. add_paths child opts L; by rewrite ?Hlayout. Qed.

(** X3.  An [add] that returns has appended the child to the sequence,
    assigned its back-reference to the Layer and run its [init] hook exactly
    once when it has one; the [disabled] flag and the handler of the child
    are as before.  No other object is touched, whether [add] returns or
    raises. *)
Theorem add_links_child child opts L :
  (add child opts L).2 = Return (RetChild child) →
  children (add child opts L).1 = children L ++ [child]
  ∧ Child.layer (objs (add child opts L).1 child) = Some (self L)
  ∧ Child.inits (objs (add child opts L).1 child)
    = (if Child.init (objs L child) then S (Child.inits (objs L child))
       else Child.inits (objs L child))
  ∧ Child.disabled (objs (add child opts L).1 child)
    = Child.disabled (objs L child)
  ∧ Child.onEvent (objs (add child opts L).1 child)
    = Child.onEvent (objs L child)
  ∧ (∀ x opts', x ≠ child → objs (add child opts' L).1 x = objs L x).
Proof.
  intros Hret. split_and!; [..|intros x opts' Hx; by apply add_others];
    revert Hret; add_paths child opts L; try done; intros _;
    read_store; by destruct (Child.init (objs L child)).
Qed.

(** X4.  An [add] that raises has not appended the child and has not run
    its [init] hook, but has already assigned the back-reference: the child
    points to a Layer it is no member of. *)
Theorem add_failure_half_done child opts L :
  (add child opts L).2 = TypeError →
  children (add child opts L).1 = children L
  ∧ Child.layer (objs (add child opts L).1 child) = Some (self L)
  ∧ Child.inits (objs (add child opts L).1 child)
    = Child.inits (objs L child).
Proof.
  intros Hret. split_and!; revert Hret; add_paths child opts L; try done;
    intros _; by read_store.
Qed.

(** X5.  On a Layer without layout, [add] always returns and places
    nothing: whatever the options, [fill] included, the rectangle of the
    child is the one it came with. *)
Theorem add_without_layout child opts L :
  layout L = None →
  (add child opts L).2 = Return (RetChild child)
  ∧ Child.rect (objs (add child opts L).1 child) = Child.rect (objs L child).
Proof.
  intros Hl. unfold add, add_finish. simpl. rewrite Hl. simpl.
  split; [done|]. read_store. by destruct (Child.init (objs L child)).
Qed.

(** X6.  The first child added to a Layer with a layout, without options
    or with options in which [useLayout] is not [false] and that leave
    nothing once [fill] and [useLayout] are taken out, goes to
    (spacing, spacing) whatever the strategy, and [add] returns. *)
Theorem add_first_at_margin lay child opts L :
  layout L = Some lay →
  children L = [] →
  uses_layout opts = true →
  isEmpty (omit opts) = true →
  (add child opts L).2 = Return (RetChild child)
  ∧ Geometry.xy (rect_of (add child opts L).1 child) = (spacing L, spacing L).
Proof.
  intros Hl Hc Huse Hempty. unfold add, add_finish. simpl.
  rewrite Hl, Huse, Hempty. simpl.
  assert (Hlen : ∀ L', children L' = children L →
                       negb (length (children L') =? 0)%nat || negb true
                       = false).
  { intros L' ->. by rewrite Hc. }
  destruct (fill_of opts); simpl; rewrite Hlen by done; simpl;
    (split; [done|]); read_store; by destruct (Child.init (objs L child)).
Qed.

(** Behind the last child: what [add] does on a linear Layer that has
    children. *)
Lemma add_follows_last_gen lay child opts L p :
  layout L = Some lay →
  lay ≠ Strategy.BorderBox →
  last (children L) = Some p →
  p ≠ child →
  uses_layout opts = true →
  (add child opts L).2 = Return (RetChild child)
  ∧ rect_of (add child opts L).1 p = rect_of L p
  ∧ Strip.follows lay (spacing L) (rect_of L p)
      (rect_of (add child opts L).1 child).
Proof.
  intros Hl Hlay Hlast Hne Huse.
  assert (Hlen : (length (children L) =? 0)%nat = false).
  { destruct (children L); [done|by apply Nat.eqb_neq]. }
  split_and!.
  - unfold add, add_finish. simpl. rewrite Hl, Huse.
    destruct (fill_of opts); simpl; rewrite Hlen, Hlast; simpl;
      by destruct lay.
  - unfold rect_of. by rewrite add_others.
  - unfold add, add_finish. simpl. rewrite Hl, Huse.
    destruct (fill_of opts); simpl; rewrite Hlen, Hlast; simpl.
    + match goal with
      | |- context [apply_layout lay ?S child (Some p) ?o] =>
          destruct (linear_step lay S child p Hlay) as (xy & Hxy & Hfollows);
          assert (Hsame : rect_of S p = rect_of L p)
            by (unfold rect_of, assign_wh; by rewrite !objs_assign_ne);
          assert (Hopts : apply_layout lay S child (Some p) o = Return xy)
            by (destruct lay; done)
      end.
      rewrite Hopts. simpl. rewrite Hsame in Hfollows. apply Hfollows.
      read_store. destruct xy. by destruct (Child.init _).
    + match goal with
      | |- context [apply_layout lay ?S child (Some p) ?o] =>
          destruct (linear_step lay S child p Hlay) as (xy & Hxy & Hfollows);
          assert (Hsame : rect_of S p = rect_of L p)
            by (unfold rect_of; by rewrite !objs_assign_ne);
          assert (Hopts : apply_layout lay S child (Some p) o = Return xy)
            by (destruct lay; done)
      end.
      rewrite Hopts. simpl. rewrite Hsame in Hfollows. apply Hfollows.
      read_store. destruct xy. by destruct (Child.init _).
Qed.

(** X7.  On a Layer with a linear layout that already has children, [add]
    of another object returns and puts it behind the last child at the
    distance [spacing]: to its right on the same line for [HBox], below it
    in the same column for [VBox].  The last child itself is not moved. *)
Theorem add_follows_last lay child opts L p :
  layout L = Some lay →
  lay ≠ Strategy.BorderBox →
  last (children L) = Some p →
  p ≠ child →
  uses_layout opts = true →
  (add child opts L).2 = Return (RetChild child)
  ∧ rect_of (add child opts L).1 p = rect_of L p
  ∧ Strip.follows lay (spacing L) (rect_of L p)
      (rect_of (add child opts L).1 child).
Proof. apply add_follows_last_gen. Qed.

(** X8.  A strip stays a strip under [add]: on a Layer with a linear layout
    whose children each follow the one before, adding an object that is not
    yet a child, with the layout left on, leaves every child following the
    one before it, the new one included. *)
Theorem add_keeps_chain lay child opts L :
  layout L = Some lay →
  lay ≠ Strategy.BorderBox →
  child ∉ children L →
  uses_layout opts = true →
  Strip.chained lay L →
  Strip.chained lay (add child opts L).1.
Proof.
  intros Hl Hlay Hnew Huse Hchain i a b Ha Hb.
  destruct (add_fields child opts L) as (-> & _).
  assert (Hold : ∀ x, x ∈ children L →
                      rect_of (add child opts L).1 x = rect_of L x).
  { intros x Hx. unfold rect_of. rewrite add_others; [done|].
    intros ->. by apply Hnew. }
  destruct (add_frame child opts L) as [_ [[Hc _]|[Hc _]]]; rewrite Hc in Ha, Hb.
  - destruct (decide (S i < length (children L))%nat) as [Hlt|Hge].
    + rewrite lookup_app_l in Ha by lia. rewrite lookup_app_l in Hb by done.
      rewrite !Hold by (by eapply list_elem_of_lookup_2).
      by apply (Hchain i).
    + assert (Hi : S i = length (children L)).
      { apply lookup_lt_Some in Hb. rewrite length_app in Hb. simpl in Hb.
        lia. }
      rewrite lookup_app_l in Ha by lia.
      rewrite lookup_app_r in Hb by lia.
      replace (S i - length (children L))%nat with 0%nat in Hb by lia.
      injection Hb as <-.
      assert (Hlast : last (children L) = Some a).
      { rewrite last_lookup, <- Hi. exact Ha. }
      assert (Hne : a ≠ child).
      { intros ->. apply Hnew. by eapply list_elem_of_lookup_2. }
      destruct (add_follows_last_gen lay child opts L a Hl Hlay Hlast Hne Huse)
        as (_ & Hp & Hfollows).
      by rewrite Hp.
  - rewrite !Hold by (by eapply list_elem_of_lookup_2).
    by apply (Hchain i).
Qed.

Lemma fill_of_pair (o : Opts) fx fy :
  o !! "fill"%string = Some (VPair fx fy) →
  fill_of (Some o) = Some (VPair fx fy).
Proof. intros H. unfold fill_of. by rewrite H. Qed.

(** X9.  On a Layer with a layout, [add] with [fill = (fx, fy)] resizes the
    child before anything else, so also when [useLayout] is [false] and
    also when the placement then raises: on an axis where the product of
    the extent of the Layer and the fraction is not zero the child gets
    that product less twice the spacing; where it is zero the child keeps
    its own extent less twice the spacing, so it shrinks. *)
Theorem add_fill_resizes lay child (o : Opts) fx fy L :
  layout L = Some lay →
  o !! "fill"%string = Some (VPair fx fy) →
  (¬ rect_w (rect L) * fx == 0 →
   rect_w (rect_of (add child (Some o) L).1 child)
   = rect_w (rect L) * fx - spacing L * 2)
  ∧ (rect_w (rect L) * fx == 0 →
     rect_w (rect_of (add child (Some o) L).1 child)
     = rect_w (rect_of L child) - spacing L * 2)
  ∧ (¬ rect_h (rect L) * fy == 0 →
     rect_h (rect_of (add child (Some o) L).1 child)
     = rect_h (rect L) * fy - spacing L * 2)
  ∧ (rect_h (rect L) * fy == 0 →
     rect_h (rect_of (add child (Some o) L).1 child)
     = rect_h (rect_of L child) - spacing L * 2).
Proof.
  intros Hl Hpair. apply fill_of_pair in Hpair.
  assert (Hsize : ∀ opts,
    fill_of opts = Some (VPair fx fy) →
    rect_w (rect_of (add child opts L).1 child)
    = fill_axis (rect_w (rect L)) (VPair fx fy) 0
        (rect_w (rect_of L child)) - spacing L * 2
    ∧ rect_h (rect_of (add child opts L).1 child)
      = fill_axis (rect_h (rect L)) (VPair fx fy) 1
          (rect_h (rect_of L child)) - spacing L * 2).
  { intros opts Hopts.
    split; add_paths child opts L; simplify_eq; read_store;
      first [done | by destruct (Child.init (objs L child))]. }
  destruct (Hsize (Some o) Hpair) as [Hw Hh].
  rewrite Hw, Hh. unfold fill_axis, Geometry.truthy. simpl.
  split_and!; intros Hz.
  - destruct (Qeq_bool _ 0) eqn:Hb; [|done]. by apply Qeq_bool_iff in Hb.
  - apply Qeq_bool_iff in Hz. by rewrite Hz.
  - destruct (Qeq_bool _ 0) eqn:Hb; [|done]. by apply Qeq_bool_iff in Hb.
  - apply Qeq_bool_iff in Hz. by rewrite Hz.
Qed.

(** X10.  On a Layer with the bounded alignment, [add] raises a TypeError
    whenever the strategy is called with options that hold no [align]:
    that is every [add] with the layout left on, but a first [add] whose
    options leave nothing once [fill] and [useLayout] are taken out. *)
Theorem BorderBox_add_needs_align child opts L :
  layout L = Some Strategy.BorderBox →
  uses_layout opts = true →
  children L ≠ [] ∨ isEmpty (omit opts) = false →
  omit opts !! "align"%string = None →
  (add child opts L).2 = TypeError
  ∧ children (add child opts L).1 = children L.
Proof.
  intros Hl Huse Hcall Halign.
  assert (Hcond : negb (length (children L) =? 0)%nat
                  || negb (isEmpty (omit opts)) = true).
  { destruct Hcall as [Hc | ->]; [|apply orb_true_r].
    destruct (children L); [done|]. done. }
  unfold add. simpl. rewrite Hl, Huse.
  destruct (fill_of opts); simpl; rewrite Hcond;
    unfold apply_layout, BorderBox; by rewrite Halign.
Qed.
End Adding.

(** ** Further properties: bounded alignment and the popup *)

Section Aligning.
Import Layer.
Local Open Scope Q_scope.

Variable isMouseEvent : Message -> bool.
Variable contains : Rect -> Vec2 -> bool.
Variable baseIsMatch : t -> oid -> oid -> bool.
Variable hasUpdate : oid -> bool.

(** X11.  On a Layer with the bounded alignment, a [remove] that leaves two
    children or more raises a TypeError half way: the sequence has lost
    what was to go and the popup slot is [null], the first child left has
    been moved to the origin, and no other object has been touched. *)
Theorem BorderBox_remove_raises L child first second rest :
  layout L = Some Strategy.BorderBox →
  lodash_remove baseIsMatch L child (children L) = first :: second :: rest →
  (remove baseIsMatch child L).2 = TypeError
  ∧ children (remove baseIsMatch child L).1 = first :: second :: rest
  ∧ popup (remove baseIsMatch child L).1 = None
  ∧ Geometry.xy (rect_of (remove baseIsMatch child L).1 first) = (0, 0)
  ∧ (∀ x, x ≠ first → objs (remove baseIsMatch child L).1 x = objs L x).
Proof.
  intros Hl Hleft. unfold remove, _reloadLayout. simpl. rewrite Hl, Hleft.
  simpl. split_and!; try done.
  - unfold rect_of. simpl. by rewrite fn_lookup_insert.
  - intros x Hx. by rewrite fn_lookup_insert_ne.
Qed.

(** Linear arithmetic over halves. *)
Ltac halves := unfold Qdiv in *; change (/ 2) with (1 # 2) in *; lra.

(** X12.  One axis of the bounded alignment.  As long as the child, centred
    on the alignment point [size * align], stays inside the parent, that is
    where its centre is put.  With a child of non-negative extent,
    alignment 0 puts it at 0; when it fits, alignment 1 puts it flush with
    the far edge.  On a parent of non-negative extent the position never
    decreases when the alignment grows. *)
Theorem border_axis_alignment size child :
  (∀ align,
      child / 2 <= size * align → size * align <= size - child / 2 →
      border_axis size align child + child / 2 == size * align)
  ∧ (0 <= child → border_axis size 0 child == 0)
  ∧ (0 <= child → child <= size →
     border_axis size 1 child == size - child)
  ∧ (∀ a a', 0 <= size → a <= a' →
             border_axis size a child <= border_axis size a' child).
Proof.
  unfold border_axis. split_and!.
  - intros align Hlo Hhi.
    assert (Hmin : Qmin (size * align - child / 2) (size - child)
                   == size * align - child / 2) by (apply Q.min_l; halves).
    assert (Hmax : Qmax 0 (Qmin (size * align - child / 2) (size - child))
                   == Qmin (size * align - child / 2) (size - child))
      by (apply Q.max_r, Q.min_glb; halves).
    halves.
  - intros Hc. apply Q.max_l.
    apply Qle_trans with (size * 0 - child / 2); [apply Q.le_min_l|halves].
  - intros Hc Hfit.
    assert (Hmin : Qmin (size * 1 - child / 2) (size - child)
                   == size - child) by (apply Q.min_r; halves).
    assert (Hmax : Qmax 0 (Qmin (size * 1 - child / 2) (size - child))
                   == Qmin (size * 1 - child / 2) (size - child))
      by (apply Q.max_r, Q.min_glb; halves).
    halves.
  - intros a a' Hs Ha. apply Q.max_le_compat_l. apply Q.min_le_compat_r.
    assert (a * size <= a' * size) by (by apply Qmult_le_compat_r).
    assert (size * a == a * size) by ring.
    assert (size * a' == a' * size) by ring.
    halves.
Qed.

(** X13.  [showPopup(p)] returns the Layer with [p] in the popup slot,
    linked back to the Layer and centred on it in the local coordinates of
    the Layer: the middle of [p] is at (w / 2, h / 2), whatever the origin
    of the Layer and also when [p] is larger than it.  The size of [p], the
    sequence of children and every other object are as before, and closing
    the popup with [showPopup(null)] empties the slot without moving [p]
    back. *)
Theorem showPopup_centres L p :
  (showPopup (Some p) L).2 = Return RetThis
  ∧ popup (showPopup (Some p) L).1 = Some p
  ∧ children (showPopup (Some p) L).1 = children L
  ∧ Child.layer (objs (showPopup (Some p) L).1 p) = Some (self L)
  ∧ rect_x (rect_of (showPopup (Some p) L).1 p) + rect_w (rect_of L p) / 2
    == rect_w (rect L) / 2
  ∧ rect_y (rect_of (showPopup (Some p) L).1 p) + rect_h (rect_of L p) / 2
    == rect_h (rect L) / 2
  ∧ rect_w (rect_of (showPopup (Some p) L).1 p) = rect_w (rect_of L p)
  ∧ rect_h (rect_of (showPopup (Some p) L).1 p) = rect_h (rect_of L p)
  ∧ (∀ x, x ≠ p → objs (showPopup (Some p) L).1 x = objs L x)
  ∧ popup (showPopup None (showPopup (Some p) L).1).1 = None
  ∧ objs (showPopup None (showPopup (Some p) L).1).1
    = objs (showPopup (Some p) L).1.
Proof.
  unfold showPopup, rect_of, assign_xy. simpl.
  rewrite !fn_lookup_insert. simpl.
  split_and!; try done; try ring.
  intros x Hx. by rewrite !fn_lookup_insert_ne.
Qed.

(** X14.  After [clear()] the Layer is empty and silent: it has no child
    and no popup, an event invokes no handler, [update] reaches nobody and
    [draw] only moves and restores the origin. *)
Theorem clear_silences L :
  children (clear L).1 = []
  ∧ popup (clear L).1 = None
  ∧ (∀ event,
        (onEvent isMouseEvent contains baseIsMatch event (clear L).1).2 = [])
  ∧ update hasUpdate (clear L).1 = Return []
  ∧ draw (clear L).1
    = [Save; Translate (rect_x (rect L)) (rect_y (rect L)); Restore].
Proof.
  assert (Hc : children (clear L).1 = []) by apply reloadLayout_frame.
  assert (Hp : popup (clear L).1 = None) by apply reloadLayout_frame.
  assert (Hr : rect (clear L).1 = rect L).
  { unfold clear, _reloadLayout. simpl. by destruct (layout L). }
  split_and!; try done.
  - intros event. rewrite onEvent_unfold, Hp, Hc.
    destruct (rejects _ _ _ _); [done|]. by destruct (eventForwarding _).
  - unfold update. by rewrite Hp, Hc.
  - unfold draw. by rewrite Hp, Hc, Hr.
Qed.
End Aligning.

(** ** Further properties: membership, dispatch and the traversals *)

Section Reaching.
Import Layer.

Variable isMouseEvent : Message -> bool.
Variable contains : Rect -> Vec2 -> bool.
Variable baseIsMatch : t -> oid -> oid -> bool.
Variable hasUpdate : oid -> bool.

Let matches := Layer.matches baseIsMatch.
Let lodash_remove := Layer.lodash_remove baseIsMatch.
Let remove := Layer.remove baseIsMatch.
Let forward := Layer.forward baseIsMatch.
Let rejects := Layer.rejects isMouseEvent contains.
Let rewrap := Layer.rewrap isMouseEvent.
Let onEvent := Layer.onEvent isMouseEvent contains baseIsMatch.
Let update := Layer.update hasUpdate.

(** X15.  After [remove(child)] the child is not in the sequence any more,
    however often it was in it; what is left is a subsequence of what was
    there, in the same order, and holds every element that lodash's
    comparison does not match with the child. *)
Theorem remove_drops_child L child :
  (child ∉ children (remove child L).1)
  ∧ sublist (children (remove child L).1) (children L)
  ∧ (∀ x, x ∈ children L → matches L child x = false →
          x ∈ children (remove child L).1).
Proof.
  unfold remove, Layer.remove.
  destruct (reloadLayout_frame
              (set_children (Layer.lodash_remove baseIsMatch L child
                               (children L)) L)) as [-> _].
  simpl. split_and!.
  - apply (lodash_remove_absent baseIsMatch).
  - apply sublist_filter.
  - intros x Hx Hm. by apply (lodash_remove_spec baseIsMatch).
Qed.

(** X16.  [remove] undoes the membership that [add] gave: for an object
    that is not a child, and that lodash's comparison matches with no child
    once it has been added, [add] followed by [remove] of it leaves the
    sequence of children as it was, whether [add] returned or raised. *)
Theorem remove_after_add L child opts :
  child ∉ children L →
  (∀ x, x ∈ children L →
        baseIsMatch ((add child opts L).1) child x = false) →
  children ((remove child ((add child opts L).1)).1) = children L.
Proof.
  intros Hnew Hmatch. unfold remove, Layer.remove.
  set (L1 := (add child opts L).1) in *.
  destruct (reloadLayout_frame
              (set_children (Layer.lodash_remove baseIsMatch L1 child
                               (children L1)) L1)) as [-> _].
  simpl.
  assert (Hkeep : Layer.lodash_remove baseIsMatch L1 child (children L)
                  = children L).
  { apply lodash_remove_none. intros c Hc. unfold Layer.matches.
    rewrite (Hmatch c Hc), orb_false_r. apply Nat.eqb_neq.
    intros ->. by apply Hnew. }
  destruct (add_frame child opts L) as [_ [[Hc _]|[Hc _]]]; fold L1 in Hc;
    rewrite Hc; [|done].
  unfold Layer.lodash_remove in *. rewrite filter_app, Hkeep.
  rewrite filter_cons_False, filter_nil; [by rewrite app_nil_r|].
  fold (Layer.matches baseIsMatch L1 child child).
  by rewrite (matches_self baseIsMatch).
Qed.

(** The loop over the children either leaves the Layer alone or promotes
    one of the items, which had taken the event. *)
Lemma forward_promoted event items L :
  (forward event items L).1 = L
  ∨ ∃ c, c ∈ items ∧ captures L event c = true
         ∧ (forward event items L).1
           = set_children (c :: lodash_remove L c (children L)) L.
Proof.
  induction items as [|c rest IH]; [by left|].
  unfold forward in *. simpl. unfold captures.
  destruct (Child.disabled (objs L c)) eqn:Hd.
  - destruct IH as [IH|(x & Hx & Hcap & IH)]; [by left|].
    right. exists x. split_and!; [by right|done..].
  - destruct (Js.is_true _) eqn:Ht.
    + right. exists c. split_and!; [by left| |done]. by rewrite Hd, Ht.
    + destruct (Layer.forward baseIsMatch event rest L) as [L' calls].
      destruct IH as [IH|(x & Hx & Hcap & IH)]; [by left|].
      right. exists x. split_and!; [by right|done..].
Qed.

(** X17.  Dispatching an event changes nothing but the order of the
    children: the objects, the popup slot, the rectangle, the spacing, the
    layout and [eventForwarding] are as before, and the sequence holds only
    objects it held before and has not grown.  Every handler that is
    invoked receives the same message: the event itself when it is no
    pointer event, and otherwise a copy that differs from it in the
    position alone, which is taken relative to the origin of the Layer. *)
Theorem onEvent_only_reorders event L :
  objs (onEvent event L).1.1 = objs L
  ∧ popup (onEvent event L).1.1 = popup L
  ∧ rect (onEvent event L).1.1 = rect L
  ∧ spacing (onEvent event L).1.1 = spacing L
  ∧ layout (onEvent event L).1.1 = layout L
  ∧ eventForwarding (onEvent event L).1.1 = eventForwarding L
  ∧ (∀ x, x ∈ children (onEvent event L).1.1 → x ∈ children L)
  ∧ length (children (onEvent event L).1.1) ≤ length (children L)
  ∧ Forall (fun call => ∃ o, call = CallChild o (rewrap L event)
                             ∨ call = CallPopup o (rewrap L event))
           (onEvent event L).2
  ∧ (isMouseEvent event = false → rewrap L event = event)
  ∧ (isMouseEvent event = true →
     type (rewrap L event) = type event
     ∧ creator (rewrap L event) = creator event
     ∧ finalCallback (rewrap L event) = finalCallback event
     ∧ data (rewrap L event) = Geometry.sub (data event) (rect L)).
Proof.
  assert (Hwrap : (isMouseEvent event = false → rewrap L event = event)
    ∧ (isMouseEvent event = true →
       type (rewrap L event) = type event
       ∧ creator (rewrap L event) = creator event
       ∧ finalCallback (rewrap L event) = finalCallback event
       ∧ data (rewrap L event) = Geometry.sub (data event) (rect L))).
  { unfold rewrap, Layer.rewrap. by split; intros ->. }
  destruct Hwrap as [Hw1 Hw2].
  rewrite (onEvent_unfold isMouseEvent contains baseIsMatch).
  destruct (Layer.rejects _ _ _ _); [by split_and!|].
  destruct (popup L) as [p|] eqn:Hp.
  { simpl. rewrite Hp. split_and!; try done.
    repeat constructor. exists p. by right. }
  destruct (eventForwarding L) eqn:Hf; [|simpl; rewrite Hp, Hf; by split_and!].
  simpl.
  destruct (forward_frame baseIsMatch (rewrap L event) (children L) L)
    as [_ Hcalls].
  assert (Hcalls' : Forall (fun call => ∃ o,
              call = CallChild o (rewrap L event)
              ∨ call = CallPopup o (rewrap L event))
            (forward (rewrap L event) (children L) L).2).
  { eapply Forall_impl; [exact Hcalls|]. intros call [c ->]. exists c.
    by left. }
  destruct (forward_promoted (rewrap L event) (children L) L)
    as [Hsame|(c & Hc & Hcap & Hsame)];
    unfold forward, rewrap, lodash_remove in *; rewrite Hsame.
  { rewrite Hp, Hf. by split_and!. }
  simpl. rewrite Hp, Hf. split_and!; try done.
  - intros x Hx. apply elem_of_cons in Hx as [->|Hx]; [done|].
    by apply (lodash_remove_spec baseIsMatch) in Hx as [_ ?].
  - assert (length (Layer.lodash_remove baseIsMatch L c (children L))
            < length (children L)).
    { apply (length_filter_lt _ _ c); [done|].
      fold (Layer.matches baseIsMatch L c c).
      by rewrite (matches_self baseIsMatch). }
    lia.
Qed.

(** The state and the calls of a dispatch in which [c] is the first child
    to take the event. *)
Lemma onEvent_capture event L pre c post :
  popup L = None →
  eventForwarding L = true →
  rejects L event = false →
  children L = pre ++ c :: post →
  (∀ x, x ∈ pre → captures L (rewrap L event) x = false) →
  captures L (rewrap L event) c = true →
  onEvent event L
  = (set_children (c :: lodash_remove L c (children L)) L, VUndefined,
     calls_to L (rewrap L event) pre ++ [CallChild c (rewrap L event)]).
Proof.
  intros Hp Hf Hr Hc Hpre Hcap.
  unfold onEvent. rewrite (onEvent_unfold isMouseEvent contains baseIsMatch).
  fold rejects. rewrite Hr, Hp, Hf. fold rewrap. rewrite Hc at 1 2.
  by rewrite (forward_capture baseIsMatch _ _ _ _ _ Hpre Hcap).
Qed.

(** X18.  When the children are distinct and lodash's comparison matches
    the child that takes the event with none of its siblings, the promotion
    is a rotation: that child comes first and the others keep their
    order. *)
Theorem promotion_keeps_order event L pre c post :
  popup L = None →
  eventForwarding L = true →
  rejects L event = false →
  children L = pre ++ c :: post →
  (∀ x, x ∈ pre → captures L (rewrap L event) x = false) →
  captures L (rewrap L event) c = true →
  NoDup (children L) →
  (∀ x, x ∈ children L → x ≠ c → baseIsMatch L c x = false) →
  children (onEvent event L).1.1 = c :: pre ++ post.
Proof.
  intros Hp Hf Hr Hc Hpre Hcap Hnd Hmatch.
  rewrite (onEvent_capture event L pre c post) by done. simpl. f_equal.
  rewrite Hc in Hnd, Hmatch |- *.
  apply NoDup_app in Hnd as (_ & Hdisj & Hnd).
  apply NoDup_cons in Hnd as [Hpost _].
  unfold lodash_remove, Layer.lodash_remove.
  rewrite filter_app, filter_cons_False.
  - f_equal; apply (lodash_remove_none baseIsMatch); intros x Hx;
      unfold Layer.matches.
    + assert (x ≠ c) by (intros ->; apply (Hdisj c Hx); by left).
      rewrite Hmatch, orb_false_r; [by apply Nat.eqb_neq| |done].
      apply elem_of_app. by left.
    + assert (x ≠ c) by (intros ->; by apply Hpost).
      rewrite Hmatch, orb_false_r; [by apply Nat.eqb_neq| |done].
      apply elem_of_app. right. by right.
  - fold (Layer.matches baseIsMatch L c c).
    by rewrite (matches_self baseIsMatch).
Qed.

(** X19.  The promotion takes out of the Layer every sibling that lodash's
    comparison matches with the child that took the event: such a sibling
    is no child any more after the dispatch. *)
Theorem promotion_drops_matching event L pre c post x :
  popup L = None →
  eventForwarding L = true →
  rejects L event = false →
  children L = pre ++ c :: post →
  (∀ y, y ∈ pre → captures L (rewrap L event) y = false) →
  captures L (rewrap L event) c = true →
  x ≠ c →
  baseIsMatch L c x = true →
  x ∉ children (onEvent event L).1.1.
Proof.
  intros Hp Hf Hr Hc Hpre Hcap Hne Hmatch.
  rewrite (onEvent_capture event L pre c post) by done. simpl.
  apply not_elem_of_cons. split; [done|]. unfold lodash_remove.
  rewrite (lodash_remove_spec baseIsMatch). intros [Hm _].
  unfold Layer.matches in Hm. by rewrite Hmatch, orb_true_r in Hm.
Qed.

(** X20.  Focus: a child that has taken an event and been promoted is
    asked first.  Whatever the handlers have done to the objects in the
    meantime, a next event that passes the hit test and that this child
    takes is handed to this child alone, and the child is still first
    afterwards. *)
Theorem focus_is_sticky event L pre c post store next :
  popup L = None →
  eventForwarding L = true →
  rejects L event = false →
  children L = pre ++ c :: post →
  (∀ x, x ∈ pre → captures L (rewrap L event) x = false) →
  captures L (rewrap L event) c = true →
  rejects L next = false →
  captures (set_objs store (onEvent event L).1.1) (rewrap L next) c = true →
  (onEvent next (set_objs store (onEvent event L).1.1)).2
  = [CallChild c (rewrap L next)]
  ∧ head (children (onEvent next (set_objs store (onEvent event L).1.1)).1.1)
    = Some c.
Proof.
  intros Hp Hf Hr Hc Hpre Hcap Hnext.
  rewrite (onEvent_capture event L pre c post) by done. simpl.
  set (L1 := set_objs store
               (set_children (c :: lodash_remove L c (children L)) L)).
  intros Hagain.
  assert (Hsecond : onEvent next L1
    = (set_children (c :: lodash_remove L1 c (children L1)) L1, VUndefined,
       calls_to L1 (rewrap L1 next) [] ++ [CallChild c (rewrap L1 next)])).
  { apply (onEvent_capture next L1 [] c (lodash_remove L c (children L)));
      [exact Hp|exact Hf|exact Hnext|reflexivity| |exact Hagain].
    intros x Hx. by apply elem_of_nil in Hx. }
  rewrite Hsecond. by split.
Qed.

(** An operation of another kind is not in a short list. *)
Ltac no_such_op H :=
  repeat (apply elem_of_cons in H as [H|H]; [discriminate H|]);
  by apply elem_of_nil in H.

(** X21.  Who is reached.  [draw] draws exactly the children that are not
    disabled, with or without a popup.  [update] reaches a child only when
    there is no popup, and then exactly the children that are not disabled
    and have an [update] method; with a popup it raises when the popup has
    no [update] method.  A handler of a child is invoked by [onEvent] only
    when there is no popup, forwarding is on and the child is not
    disabled.  The popup itself is drawn, updated and handed events without
    its [disabled] flag being looked at. *)
Theorem traversal_reach L c :
  (DrawChild c ∈ draw L
   ↔ c ∈ children L ∧ Child.disabled (objs L c) = false)
  ∧ (∀ p, DrawPopup p ∈ draw L ↔ popup L = Some p)
  ∧ (∀ ticks, update L = Return ticks →
       (TickChild c ∈ ticks
        ↔ popup L = None ∧ c ∈ children L
          ∧ Child.disabled (objs L c) = false ∧ hasUpdate c = true))
  ∧ (∀ p, popup L = Some p →
          update L = (if hasUpdate p then Return [TickPopup p] else TypeError))
  ∧ (∀ event m, CallChild c m ∈ (onEvent event L).2 →
       popup L = None ∧ eventForwarding L = true ∧ c ∈ children L
       ∧ Child.disabled (objs L c) = false)
  ∧ (∀ event p, popup L = Some p → rejects L event = false →
       (onEvent event L).2 = [CallPopup p (rewrap L event)]).
Proof.
  split_and!.
  - unfold draw. rewrite !elem_of_app, list_elem_of_fmap. split.
    + intros [H|[(x & [= <-] & Hx)|[H|H]]].
      * no_such_op H.
      * apply list_elem_of_filter in Hx. tauto.
      * destruct (popup L); no_such_op H.
      * no_such_op H.
    + intros [Hc Hd]. right. left. exists c. split; [done|].
      by apply list_elem_of_filter.
  - intros p. unfold draw. rewrite !elem_of_app, list_elem_of_fmap. split.
    + intros [H|[(x & [=] & _)|[H|H]]]; [no_such_op H| |no_such_op H].
      destruct (popup L) as [q|]; [|no_such_op H].
      do 2 (apply elem_of_cons in H as [H|H]; [discriminate H|]).
      apply list_elem_of_singleton in H. by injection H as ->.
    + intros ->. right. right. left. do 2 right. by left.
  - intros ticks. unfold update, Layer.update.
    destruct (popup L) as [p|].
    + destruct (hasUpdate p); intros [= <-]. split.
      * intros H. no_such_op H.
      * by intros [? _].
    + intros [= <-]. rewrite list_elem_of_fmap. split.
      * intros (x & [= <-] & Hx). apply list_elem_of_filter in Hx. tauto.
      * intros (_ & Hc & Hd & Hu). exists c. split; [done|].
        by apply list_elem_of_filter.
  - intros p Hp. unfold update, Layer.update. by rewrite Hp.
  - intros event m. unfold onEvent.
    rewrite (onEvent_unfold isMouseEvent contains baseIsMatch).
    destruct (Layer.rejects _ _ _ _); [intros H; no_such_op H|].
    destruct (popup L); [intros H; no_such_op H|].
    destruct (eventForwarding L); [|intros H; no_such_op H].
    simpl. intros Hin. split_and!; try done.
    + clear -Hin. induction (children L) as [|x rest IH]; simpl in Hin.
      * no_such_op Hin.
      * destruct (Child.disabled (objs L x)); [right; by apply IH|].
        destruct (Js.is_true _).
        -- apply list_elem_of_singleton in Hin as [= -> _]. by left.
        -- destruct (Layer.forward _ _ rest L) as [L' calls]. simpl in *.
           apply elem_of_cons in Hin as [[= -> _]|Hin]; [by left|].
           right. by apply IH.
    + clear -Hin. induction (children L) as [|x rest IH]; simpl in Hin.
      * no_such_op Hin.
      * destruct (Child.disabled (objs L x)) eqn:Hd; [by apply IH|].
        destruct (Js.is_true _).
        -- by apply list_elem_of_singleton in Hin as [= -> _].
        -- destruct (Layer.forward _ _ rest L) as [L' calls]. simpl in *.
           apply elem_of_cons in Hin as [[= -> _]|Hin]; [done|].
           by apply IH.
  - intros event p Hp Hr. unfold onEvent.
    rewrite (onEvent_unfold isMouseEvent contains baseIsMatch).
    fold rejects. by rewrite Hr, Hp.
Qed.

(** X22.  The child that has taken an event is the first that [draw] draws
    afterwards, so it is painted underneath the siblings that are drawn
    after it. *)
Theorem promoted_drawn_first event L pre c post :
  popup L = None →
  eventForwarding L = true →
  rejects L event = false →
  children L = pre ++ c :: post →
  (∀ x, x ∈ pre → captures L (rewrap L event) x = false) →
  captures L (rewrap L event) c = true →
  draw (onEvent event L).1.1 !! 2 = Some (DrawChild c).
Proof.
  intros Hp Hf Hr Hc Hpre Hcap.
  rewrite (onEvent_capture event L pre c post) by done.
  unfold draw. simpl. rewrite filter_cons_True; [done|].
  unfold captures in Hcap. apply andb_true_iff in Hcap as [Hd _].
  by apply negb_true_iff in Hd.
Qed.
End Reaching.

(** ** The further properties at concrete inputs *)

Section MoreInstances.
Import Layer Scenario.
Local Open Scope Q_scope.

(** Membership in a list that is written out. *)
Ltac each_member H :=
  repeat (apply elem_of_cons in H as [->|H]; [try reflexivity|]);
  try (by apply elem_of_nil in H).

(** No membership of an object that is not written in the list. *)
Ltac not_member H :=
  repeat (apply elem_of_cons in H as [H|H]; [discriminate H|]);
  by apply elem_of_nil in H.

Lemma pair_strip_NoDup : NoDup (children pair_strip.1).
Proof. apply (bool_decide_unpack _). exact I. Defined.

Lemma pair_strip_chained : Strip.chained Strategy.HBox pair_strip.1.
Proof.
  intros i a b Ha Hb. destruct i as [|[|i]]; [|discriminate Hb..].
  injection Ha as <-. injection Hb as <-. split; reflexivity.
Defined.

(** Removing the child 1 from the strip [1, 2]. *)
Lemma remove_relays_strip_witness :
  (Scenario.remove 1%nat pair_strip.1).2 = Return RetThis
  ∧ Scenario.position (Scenario.remove 1%nat pair_strip.1) 2%nat = (0, 0)
  ∧ Strip.chained Strategy.HBox (Scenario.remove 1%nat pair_strip.1).1.
Proof.
  destruct (remove_relays_strip plainIsMatch Strategy.HBox pair_strip.1 1%nat
              eq_refl) as (Hret & Hfirst & Hchain).
  - discriminate.
  - exact pair_strip_NoDup.
  - split; [exact Hret|]. split; [exact (Hfirst 2%nat eq_refl)|exact Hchain].
Defined.

(** The first [add] on the strip. *)
Lemma add_links_child_witness :
  children (add 1%nat None strip).1 = [1%nat]
  ∧ Child.layer (objs (add 1%nat None strip).1 1%nat) = Some layerId.
Proof.
  destruct (add_links_child 1%nat None strip eq_refl)
    as (Hc & Hl & _).
  split; [exact Hc|exact Hl].
Defined.

(** [add(1, {align: [0, 0]})] on the empty strip raises and leaves the
    child 1 linked. *)
Lemma add_failure_half_done_witness :
  children (add 1%nat (Some (aligned 0 0)) strip).1 = []
  ∧ Child.layer (objs (add 1%nat (Some (aligned 0 0)) strip).1 1%nat)
    = Some layerId.
Proof.
  destruct (add_failure_half_done 1%nat (Some (aligned 0 0)) strip eq_refl)
    as (Hc & Hl & _).
  split; [exact Hc|exact Hl].
Defined.

(** [add(4, {fill: [1/2, 0], align: [0, 0]})] on the board, which has no
    layout. *)
Lemma add_without_layout_witness :
  (add 4%nat (Some half_wide) board).2 = Return (RetChild 4%nat)
  ∧ Child.rect (objs (add 4%nat (Some half_wide) board).1 4%nat)
    = mkRect 0 0 30 30.
Proof. exact (add_without_layout 4%nat (Some half_wide) board eq_refl). Defined.

(** The first child of the strip goes to (5, 5). *)
Lemma add_first_at_margin_witness :
  (add 1%nat None strip).2 = Return (RetChild 1%nat)
  ∧ Geometry.xy (rect_of (add 1%nat None strip).1 1%nat) = (5, 5).
Proof.
  exact (add_first_at_margin Strategy.HBox 1%nat None strip
           eq_refl eq_refl eq_refl eq_refl).
Defined.

(** The child 3 added to the strip [1, 2] follows the child 2. *)
Lemma add_follows_last_witness :
  (add 3%nat None pair_strip.1).2 = Return (RetChild 3%nat)
  ∧ Strip.right_of 5 (rect_of pair_strip.1 2%nat)
      (rect_of (add 3%nat None pair_strip.1).1 3%nat).
Proof.
  destruct (add_follows_last Strategy.HBox 3%nat None pair_strip.1 2%nat
              eq_refl) as (Hret & _ & Hfollows).
  - discriminate.
  - reflexivity.
  - discriminate.
  - reflexivity.
  - split; [exact Hret|exact Hfollows].
Defined.

(** The strip [1, 2] is still a strip with the child 3 added. *)
Lemma add_keeps_chain_witness :
  Strip.chained Strategy.HBox (add 3%nat None pair_strip.1).1.
Proof.
  apply (add_keeps_chain Strategy.HBox 3%nat None pair_strip.1 eq_refl).
  - discriminate.
  - intros H. change (3%nat ∈ [1; 2]%nat) in H. not_member H.
  - reflexivity.
  - exact pair_strip_chained.
Defined.

(** A 20x20 child added to the 100x100 Layer with [fill = (1/2, 0)]: half
    the width of the Layer less twice the spacing, and its own height less
    twice the spacing. *)
Lemma add_fill_resizes_witness :
  rect_w (rect_of (add 1%nat (Some half_wide) bordered).1 1%nat)
  = 100 * (1 # 2) - 5 * 2
  ∧ rect_h (rect_of (add 1%nat (Some half_wide) bordered).1 1%nat)
    = 20 - 5 * 2.
Proof.
  destruct (add_fill_resizes Strategy.BorderBox 1%nat half_wide (1 # 2) 0
              bordered eq_refl eq_refl) as (Hw & _ & _ & Hh).
  split.
  - apply Hw. intros H. vm_compute in H. discriminate H.
  - apply Hh. reflexivity.
Defined.

(** A second [add] without options on the bounded-alignment Layer. *)
Lemma BorderBox_add_needs_align_witness :
  (add 2%nat None (add 1%nat None bordered).1).2 = TypeError
  ∧ children (add 2%nat None (add 1%nat None bordered).1).1 = [1%nat].
Proof.
  apply (BorderBox_add_needs_align 2%nat None (add 1%nat None bordered).1).
  - reflexivity.
  - reflexivity.
  - left. discriminate.
  - reflexivity.
Defined.

(** [remove(7)] on the bounded-alignment Layer [1, 2]. *)
Lemma BorderBox_remove_raises_witness :
  (Scenario.remove 7%nat pair_bordered.1).2 = TypeError
  ∧ Scenario.position (Scenario.remove 7%nat pair_bordered.1) 1%nat = (0, 0).
Proof.
  destruct (BorderBox_remove_raises plainIsMatch pair_bordered.1 7%nat
              1%nat 2%nat [] eq_refl) as (Hraise & _ & _ & Hfirst & _).
  - vm_compute. reflexivity.
  - split; [exact Hraise|exact Hfirst].
Defined.

(** The object 4 added to the board [1, 2, 3] and removed again. *)
Lemma remove_after_add_witness :
  children (Scenario.remove 4%nat (add 4%nat None board).1).1
  = [1; 2; 3]%nat.
Proof.
  apply (remove_after_add plainIsMatch board 4%nat None).
  - intros H. change (4%nat ∈ [1; 2; 3]%nat) in H. not_member H.
  - intros x H. change (x ∈ [1; 2; 3]%nat) in H. each_member H.
Defined.

Lemma board_first_taker x :
  x ∈ [1%nat] → captures board key x = false.
Proof. intros H. each_member H. Defined.

(** [1, 2, 3] with 2 taking the event becomes [2, 1, 3]. *)
Lemma promotion_keeps_order_witness :
  children (Scenario.onEvent key board).1.1 = [2; 1; 3]%nat.
Proof.
  apply (promotion_keeps_order isMouse Geometry.contains plainIsMatch
           key board [1%nat] 2%nat [3%nat]
           eq_refl eq_refl eq_refl eq_refl board_first_taker eq_refl).
  - apply (bool_decide_unpack _). exact I.
  - intros x H Hne. change (x ∈ [1; 2; 3]%nat) in H.
    each_member H. by destruct Hne.
Defined.

(** In [1, 2, 3] with 3 the look-alike of 2, the child 3 is gone once 2 has
    taken an event. *)
Lemma promotion_drops_matching_witness :
  3%nat ∉ children (Scenario.onEvent key twins).1.1.
Proof.
  apply (promotion_drops_matching isMouse Geometry.contains plainIsMatch
           key twins [1%nat] 2%nat [3%nat] 3%nat
           eq_refl eq_refl eq_refl eq_refl).
  - intros x H. each_member H.
  - reflexivity.
  - discriminate.
  - reflexivity.
Defined.

(** The key press dispatched twice to the board, whose handlers stay as
    they are: the second time the child 2 alone is invoked. *)
Lemma focus_is_sticky_witness :
  (Scenario.onEvent key
     (set_objs handlers (Scenario.onEvent key board).1.1)).2
  = [CallChild 2%nat key]
  ∧ head (children
            (Scenario.onEvent key
               (set_objs handlers (Scenario.onEvent key board).1.1)).1.1)
    = Some 2%nat.
Proof.
  exact (focus_is_sticky isMouse Geometry.contains plainIsMatch
           key board [1%nat] 2%nat [3%nat] handlers key
           eq_refl eq_refl eq_refl eq_refl board_first_taker eq_refl
           eq_refl eq_refl).
Defined.

(** After the key press the child 2 is the first to be drawn. *)
Lemma promoted_drawn_first_witness :
  draw (Scenario.onEvent key board).1.1 !! 2%nat = Some (DrawChild 2%nat).
Proof.
  exact (promoted_drawn_first isMouse Geometry.contains plainIsMatch
           key board [1%nat] 2%nat [3%nat]
           eq_refl eq_refl eq_refl eq_refl board_first_taker eq_refl).
Defined.
(** [add(1, {align: 5})] on the bounded-alignment Layer: the position is
    [NaN], and the child is initialised and pushed all the same. *)
Example add_with_NaN_position :
  let opts : Opts := {[ "align"%string := VNum 5 ]} in
  (add 1%nat (Some opts) bordered).2 = NotANumber
  ∧ children (add 1%nat (Some opts) bordered).1 = [1%nat]
  ∧ Child.layer (objs (add 1%nat (Some opts) bordered).1 1%nat)
    = Some layerId.
Proof. vm_compute. repeat split. Qed.
End MoreInstances.
